(** * Working-copy metadata store of osc2 ([osc/wc/util.py])

    A shallow embedding of the store helpers of [osc.wc.util] over an
    explicit model of the part of the POSIX file system they touch, and
    the properties of the store that follow from the code. *)

From stdpp Require Import gmap strings list fin_maps.

Local Open Scope string_scope.
Local Open Scope list_scope.

(** ** Paths and the file system

    A path is the list of its components below the file system root, so
    [os.path.join(d, name)] of a directory and a single component is
    [d ++ [name]].  Paths are absolute and normalised: no [.] or [..]
    component, no empty component.  The names that are joined to a
    directory are single components, as the names of the store and of
    its files are.  A path that a caller gives relative to the working
    directory stands for the absolute path it names ([abspath] below). *)

Abbreviation path := (list string).

Definition os_path_join (d : path) (name : string) : path := d ++ [name].

(** The [errno] values the modelled system calls report. *)
Inductive errno :=
| ENOENT | EIO | EACCES | EEXIST | ENOTDIR | EISDIR | EINVAL | ENOSPC | ELOOP.

Global Instance errno_eq_dec : EqDecision errno.
Proof. solve_decision. Defined.

(** What the file system holds at a physical location.  A directory
    carries its write permission for the calling process; a symbolic
    link carries the absolute path it leads to: its text when that is
    absolute, and for a relative text the path the text names from the
    directory the link is in ([link_target] below). *)
Inductive node :=
| File (content : string)
| Dir (writable : bool)
| Symlink (target : path).

Global Instance node_eq_dec : EqDecision node.
Proof. solve_decision. Defined.

(** A file system maps physical paths to nodes; [[]] is the root [/]. *)
Abbreviation fsys := (gmap path node).

(** The kernel follows at most this many links in one lookup. *)
Definition MAXSYMLINKS : nat := 40.

(** Path resolution: walk the components of [rest] below the physical
    directory [cur].  Every step needs [cur] to be a directory; a link is
    followed by restarting at the root with the link's target in front
    of what is left, and costs one unit of [fuel].  With [creat] set (an
    [open] that may create the file) a missing last component is not an
    error and the place where it would be created is returned.  The
    result carries the fuel that is left. *)
Fixpoint walk (fuel : nat) (creat : bool) (fs : fsys) {struct fuel}
    : path -> path -> errno + (nat * path) :=
  fix go (cur rest : path) {struct rest} : errno + (nat * path) :=
    match rest with
    | [] => inr (fuel, cur)
    | c :: rest' =>
        match fs !! cur with
        | Some (Dir _) =>
            match fs !! (cur ++ [c]) with
            | None =>
                match rest' with
                | [] => if creat then inr (fuel, cur ++ [c]) else inl ENOENT
                | _ :: _ => inl ENOENT
                end
            | Some (Symlink t) =>
                match fuel with
                | O => inl ELOOP
                | S fuel' => walk fuel' creat fs [] (t ++ rest')
                end
            | Some _ => go (cur ++ [c]) rest'
            end
        | Some _ => inl ENOTDIR
        | None => inl ENOENT
        end
    end.

(** The physical location a path leads to, links followed
    ([os.path.realpath] of a path that exists). *)
Definition realpath (fs : fsys) (p : path) : errno + path :=
  match walk MAXSYMLINKS false fs [] p with
  | inl e => inl e
  | inr (_, q) => inr q
  end.

(** [os.stat]: the node a path leads to, links followed. *)
Definition stat (fs : fsys) (p : path) : errno + node :=
  match realpath fs p with
  | inl e => inl e
  | inr q =>
      match fs !! q with
      | Some n => inr n
      | None => inl ENOENT
      end
  end.

(** [os.path.exists], [os.path.isdir], [os.path.isfile]: all three go
    through [os.stat] and answer [False] when it fails. *)
Definition os_path_exists (fs : fsys) (p : path) : bool :=
  match stat fs p with
  | inr _ => true
  | inl _ => false
  end.

Definition os_path_isdir (fs : fsys) (p : path) : bool :=
  match stat fs p with
  | inr (Dir _) => true
  | _ => false
  end.

Definition os_path_isfile (fs : fsys) (p : path) : bool :=
  match stat fs p with
  | inr (File _) => true
  | _ => false
  end.

(** [os.access(p, os.W_OK)]: only directories carry a permission here,
    a regular file is writable. *)
Definition os_access_w (fs : fsys) (p : path) : bool :=
  match stat fs p with
  | inr (Dir w) => w
  | inr (File _) => true
  | _ => false
  end.

(** ** Store layout *)

Definition _STORE : string := ".osc".
Definition _PKG_DATA : string := "data".
Definition _LOCK : string := "wc.lock".

Definition _storedir (p : path) : path := os_path_join p _STORE.

Definition _storefile (p : path) (filename : string) : path :=
  os_path_join (_storedir p) filename.

Definition _has_storedir (fs : fsys) (p : path) : bool :=
  os_path_isdir fs p && os_path_isdir fs (_storedir p).

(** ** [missing_storepaths]

    The body of the [for] loop: [missing.append(p)] when the store path
    fails the test selected by [dirs]. *)
Definition missing_step (fs : fsys) (storedir : path) (dirs : bool)
    (missing : list string) (p : string) : list string :=
  let storepath := os_path_join storedir p in
  if dirs then
    if negb (os_path_isdir fs storepath) then missing ++ [p] else missing
  else
    if negb (os_path_isfile fs storepath) then missing ++ [p] else missing.

Definition missing_storepaths (fs : fsys) (p : path) (paths : list string)
    (dirs data : bool) : list string :=
  if negb (_has_storedir fs p) then paths
  else
    let storedir := if data then _storefile p _PKG_DATA else _storedir p in
    fold_left (missing_step fs storedir dirs) paths [].

(** ** Classification *)

Definition entry_names : list string := ["_apiurl"; "_project"; "_package"].

Definition wc_is_project (fs : fsys) (p : path) : bool :=
  let missing := missing_storepaths fs p entry_names false false in
  if bool_decide (missing = []) then false
  else if Nat.eqb (List.length missing) 1 && bool_decide ("_package" ∈ missing) then true
  else false.

Definition wc_is_package (fs : fsys) (p : path) : bool :=
  bool_decide (missing_storepaths fs p entry_names false false = []).

(** ** Exceptions

    Every [raise] of the module is a [ValueError] or a [RuntimeError]
    told apart by its message only; the constructors below name the
    raise sites.  The system calls raise [OSError], the file objects
    [IOError], both with an [errno]. *)
Inductive value_error :=
| NoValidStorefile (filename : string)   (* "'%s' is no valid storefile" *)
| NoStoredir (p : path)                  (* "path %s has no storedir" *)
| BadExtStoredir (ext : path)            (* "ext_storedir %s is no dir or not writable" *)
| AlreadyWorkingCopy (p : path)          (* "path %s is already a working copy" *)
| ExistsButNoDir (p : path)              (* "path %s already exists but is no dir" *)
| NoPermissionToCreate (p : path)        (* "no permission to create path %s" *)
| NoPermissionForStoredir (p : path).    (* "no permission to create a storedir (path: %s)" *)

Inductive runtime_error :=
| DoubleLock                             (* 'Double lock occured' *)
| UnacquiredRelease.                     (* 'Attempting to release an unaquired lock.' *)

Inductive exn :=
| ValueError (why : value_error)
| RuntimeError (why : runtime_error)
| OSError (e : errno)
| IOError (e : errno).

(** ** Commands on the file system

    A command runs on a file system and leaves one behind whether it
    returns or raises: what was done before an exception stays done. *)
Definition io (A : Type) : Type := fsys -> fsys * (exn + A).

Definition ret {A} (a : A) : io A := fun fs => (fs, inr a).

Definition raise {A} (e : exn) : io A := fun fs => (fs, inl e).

Definition bind {A B} (m : io A) (k : A -> io B) : io B :=
  fun fs =>
    match m fs with
    | (fs', inl e) => (fs', inl e)
    | (fs', inr a) => k a fs'
    end.

(** Evaluate a test on the current file system. *)
Definition test {A} (f : fsys -> A) : io A := fun fs => (fs, inr (f fs)).

(** [try: body except Exception as e: handler(e)] *)
Definition try_except {A} (body : io A) (handler : exn -> io A) : io A :=
  fun fs =>
    match body fs with
    | (fs', inl e) => handler e fs'
    | (fs', inr a) => (fs', inr a)
    end.

(** [try: body finally: final]: [final] runs on every exit of [body];
    an exception of [final] replaces the outcome of [body], otherwise
    that outcome (the value or the pending exception) stands. *)
Definition try_finally {A} (body : io A) (final : io unit) : io A :=
  fun fs =>
    match body fs with
    | (fs1, r) =>
        match final fs1 with
        | (fs2, inl e) => (fs2, inl e)
        | (fs2, inr _) => (fs2, r)
        end
    end.

Declare Scope io_scope.
Delimit Scope io_scope with io.
Notation "x <- m ;; k" := (bind m (fun x => k))
  (at level 100, m at next level, right associativity) : io_scope.
Notation "m ;;; k" := (bind m (fun _ => k))
  (at level 100, right associativity) : io_scope.

(** ** System calls *)

(** The last component of a path and the directory it is in. *)
Fixpoint split_last (p : path) : option (path * string) :=
  match p with
  | [] => None
  | c :: p' =>
      match split_last p' with
      | None => Some ([], c)
      | Some (d, l) => Some (c :: d, l)
      end
  end.

(** Where a path's last component lives, without following it (what
    [lstat] and the calls that create or remove a name look at): the
    physical parent directory, its write permission, the name, and the
    node under that name if there is one. *)
Record slot := Slot {
  slot_dir : path;
  slot_writable : bool;
  slot_name : string;
  slot_node : option node
}.

Definition slot_path (s : slot) : path := slot_dir s ++ [slot_name s].

Definition lookup_slot (fs : fsys) (p : path) : errno + option slot :=
  match split_last p with
  | None => inr None
  | Some (d, c) =>
      match walk MAXSYMLINKS false fs [] d with
      | inl e => inl e
      | inr (_, dp) =>
          match fs !! dp with
          | Some (Dir w) => inr (Some (Slot dp w c (fs !! (dp ++ [c]))))
          | Some _ => inl ENOTDIR
          | None => inl ENOENT
          end
      end
  end.

(** Create a name in a directory: the common part of [mkdir],
    [symlink] and an exclusive [open].  An existing name is reported
    before a missing permission. *)
Definition create_node (p : path) (n : node) : fsys -> fsys * (errno + path) :=
  fun fs =>
    match lookup_slot fs p with
    | inl e => (fs, inl e)
    | inr None => (fs, inl EEXIST)
    | inr (Some s) =>
        match slot_node s with
        | Some _ => (fs, inl EEXIST)
        | None =>
            if slot_writable s
            then (<[slot_path s := n]> fs, inr (slot_path s))
            else (fs, inl EACCES)
        end
    end.

Definition os_mkdir (p : path) : io unit :=
  fun fs =>
    match create_node p (Dir true) fs with
    | (fs', inl e) => (fs', inl (OSError e))
    | (fs', inr _) => (fs', inr tt)
    end.

(** [os.symlink] of a link that leads to the absolute path [target];
    [os_symlink_text] below takes the text as the caller gives it. *)
Definition os_symlink (target linkpath : path) : io unit :=
  fun fs =>
    match create_node linkpath (Symlink target) fs with
    | (fs', inl e) => (fs', inl (OSError e))
    | (fs', inr _) => (fs', inr tt)
    end.

(** [os.unlink] removes a name that is not a directory. *)
Definition os_unlink (p : path) : io unit :=
  fun fs =>
    match lookup_slot fs p with
    | inl e => (fs, inl (OSError e))
    | inr None => (fs, inl (OSError EISDIR))
    | inr (Some s) =>
        match slot_node s with
        | None => (fs, inl (OSError ENOENT))
        | Some (Dir _) => (fs, inl (OSError EISDIR))
        | Some _ =>
            if slot_writable s
            then (delete (slot_path s) fs, inr tt)
            else (fs, inl (OSError EACCES))
        end
    end.

(** [os.rename] of a name that is not a directory (the store renames
    its temporary file only; moving a directory tree is not modelled
    and reported as [EINVAL]).  The new name is replaced unless it is a
    directory; neither name is followed when it is a link. *)
Definition os_rename (src dst : path) : io unit :=
  fun fs =>
    match lookup_slot fs src, lookup_slot fs dst with
    | inl e, _ => (fs, inl (OSError e))
    | _, inl e => (fs, inl (OSError e))
    | inr None, _ => (fs, inl (OSError EINVAL))
    | _, inr None => (fs, inl (OSError EINVAL))
    | inr (Some s), inr (Some d) =>
        match slot_node s with
        | None => (fs, inl (OSError ENOENT))
        | Some (Dir _) => (fs, inl (OSError EINVAL))
        | Some n =>
            match slot_node d with
            | Some (Dir _) => (fs, inl (OSError EISDIR))
            | _ =>
                if bool_decide (slot_path s = slot_path d) then (fs, inr tt)
                else if slot_writable s && slot_writable d
                then (<[slot_path d := n]> (delete (slot_path s) fs), inr tt)
                else (fs, inl (OSError EACCES))
            end
        end
    end.

(** [os.makedirs]: make the parent first when it does not exist (and be
    happy if someone created it meanwhile), then the directory itself.
    The recursion of the library function is on the parent, that is on
    the reversed path here. *)
Fixpoint makedirs_rev (rname : path) : io unit :=
  match rname with
  | [] => os_mkdir []
  | tail :: rhead =>
      let head := reverse rhead in
      (missing <- test (fun fs => negb (os_path_exists fs head)) ;;
       (if missing : bool
        then try_except (makedirs_rev rhead)
               (fun e => match e with
                         | OSError EEXIST => ret tt
                         | _ => raise e
                         end)
        else ret tt) ;;;
       os_mkdir (head ++ [tail]))%io
  end.

Definition os_makedirs (name : path) : io unit := makedirs_rev (reverse name).

(** ** File objects *)

(** [open(p, 'r').read()] *)
Definition read_file (p : path) : io string :=
  fun fs =>
    match stat fs p with
    | inl e => (fs, inl (IOError e))
    | inr (File c) => (fs, inr c)
    | inr _ => (fs, inl (IOError EISDIR))
    end.

(** [open(p, 'w')]: truncate the file the path leads to, or create it
    where the path ends.  The result is the physical file that is open. *)
Definition open_w (p : path) : io path :=
  fun fs =>
    match walk MAXSYMLINKS true fs [] p with
    | inl e => (fs, inl (IOError e))
    | inr (_, q) =>
        match fs !! q with
        | Some (File _) => (<[q := File EmptyString]> fs, inr q)
        | Some _ => (fs, inl (IOError EISDIR))
        | None =>
            match split_last q with
            | None => (fs, inl (IOError ENOENT))
            | Some (d, _) =>
                match fs !! d with
                | Some (Dir true) => (<[q := File EmptyString]> fs, inr q)
                | _ => (fs, inl (IOError EACCES))
                end
            end
        end
    end.

(** A temporary file: the name it was created under and the physical
    file its descriptor is open on. *)
Record tmpfile := TmpFile { tmp_name : path; tmp_fd : path }.

(** [NamedTemporaryFile(dir=dir, delete=False)]: the library tries
    candidate names in turn, creating the file exclusively; a name that
    exists is skipped, any other error is raised, and running out of
    candidates is an [IOError].  The candidates are the environment's. *)
Fixpoint NamedTemporaryFile (names : list string) (dir : path) : io tmpfile :=
  match names with
  | [] => raise (IOError EEXIST)
  | n :: names' =>
      fun fs =>
        match create_node (os_path_join dir n) (File EmptyString) fs with
        | (fs', inr q) => (fs', inr (TmpFile (os_path_join dir n) q))
        | (fs', inl EEXIST) => NamedTemporaryFile names' dir fs'
        | (fs', inl e) => (fs', inl (OSError e))
        end
  end.

(** [f.write(data)].  The environment may make the write fail after
    the first [k] characters went out ([fault = Some (k, e)]). *)
Definition file_write (fault : option (nat * errno)) (fd : path) (data : string)
    : io unit :=
  fun fs =>
    match fs !! fd with
    | Some (File c) =>
        match fault with
        | None => (<[fd := File (String.append c data)]> fs, inr tt)
        | Some (k, e) =>
            (<[fd := File (String.append c (String.substring 0 k data))]> fs,
             inl (IOError e))
        end
    | _ => (fs, inl (IOError EIO))
    end.

(** [f.close()].  The file object buffers what is written and [close]
    flushes the buffer, so the content of a file that is open for
    writing is what the file will hold once it is closed.  When the
    environment makes [close] fail ([fault = Some (k, e)]), only the
    first [k] characters of that content have reached the file: what
    was still in the buffer is lost. *)
Definition file_close (fault : option (nat * errno)) (fd : path) : io unit :=
  match fault with
  | None => ret tt
  | Some (k, e) =>
      fun fs =>
        match fs !! fd with
        | Some (File c) =>
            (<[fd := File (String.substring 0 k c)]> fs, inl (IOError e))
        | _ => (fs, inl (IOError EIO))
        end
  end.

(** What the environment decides in a run of [_write_storefile]: the
    candidate names of the temporary file, and which of the calls on
    the file object fails, if any. *)
Record io_env := IoEnv {
  tmp_names : list string;
  write_fault : option (nat * errno);
  newline_fault : option (nat * errno);
  close_fault : option (nat * errno)
}.

(** ** Reading and writing store files *)

(** [str.strip()]: the characters [' \t\n\r\x0b\x0c'] go, at both ends. *)
Definition is_space (a : Ascii.ascii) : bool :=
  let n := Ascii.nat_of_ascii a in
  Nat.eqb n 32 || (Nat.leb 9 n && Nat.leb n 13).

Fixpoint lstrip (s : string) : string :=
  match s with
  | EmptyString => EmptyString
  | String a s' => if is_space a then lstrip s' else s
  end.

Fixpoint rstrip (s : string) : string :=
  match s with
  | EmptyString => EmptyString
  | String a s' =>
      match rstrip s' with
      | EmptyString => if is_space a then EmptyString else String a EmptyString
      | r => String a r
      end
  end.

Definition strip (s : string) : string := lstrip (rstrip s).

Definition NL : string := String (Ascii.ascii_of_nat 10) EmptyString.

Definition _read_storefile (p : path) (filename : string) : io string :=
  (missing <- test (fun fs => missing_storepaths fs p [filename] false false) ;;
   match missing with
   | _ :: _ => raise (ValueError (NoValidStorefile filename))
   | [] =>
       content <- read_file (_storefile p filename) ;;
       ret (strip content)
   end)%io.

Definition _write_storefile (env : io_env) (p : path) (filename data : string)
    : io unit :=
  (has <- test (fun fs => _has_storedir fs p) ;;
   if negb has then raise (ValueError (NoStoredir p))
   else
     let fname := _storefile p filename in
     fun fs =>
       (* try: *)
       match NamedTemporaryFile (tmp_names env) (_storedir p) fs with
       | (fs1, inl e) =>
           (* finally: tmpfile is None *)
           (fs1, inl e)
       | (fs1, inr tmp) =>
           try_finally
             (file_write (write_fault env) (tmp_fd tmp) data ;;;
              match data with
              | EmptyString => ret tt
              | String _ _ => file_write (newline_fault env) (tmp_fd tmp) NL
              end)
             (* finally: tmpfile is not None *)
             (file_close (close_fault env) (tmp_fd tmp) ;;;
              os_rename (tmp_name tmp) fname)
             fs1
       end)%io.

Definition wc_read_project (p : path) : io string := _read_storefile p "_project".
Definition wc_read_packages (p : path) : io string := _read_storefile p "_packages".
Definition wc_read_package (p : path) : io string := _read_storefile p "_package".
Definition wc_read_apiurl (p : path) : io string := _read_storefile p "_apiurl".
Definition wc_read_files (p : path) : io string := _read_storefile p "_files".

Definition wc_write_apiurl env (p : path) (apiurl : string) : io unit :=
  _write_storefile env p "_apiurl" apiurl.
Definition wc_write_project env (p : path) (project : string) : io unit :=
  _write_storefile env p "_project" project.
Definition wc_write_package env (p : path) (package : string) : io unit :=
  _write_storefile env p "_package" package.
Definition wc_write_packages env (p : path) (xml_data : string) : io unit :=
  _write_storefile env p "_packages" xml_data.
Definition wc_write_files env (p : path) (xml_data : string) : io unit :=
  _write_storefile env p "_files" xml_data.

(** ** [wc_init]

    The call with both arguments given as absolute paths;
    [wc_init_cwd] below is the call with [ext_storedir] as the caller
    writes it, absolute or relative to the working directory. *)

Definition wc_init (p : path) (ext_storedir : option path) : io unit :=
  (bad_ext <- test (fun fs =>
     match ext_storedir with
     | Some ext => negb (os_path_isdir fs ext) || negb (os_access_w fs ext)
     | None => false
     end) ;;
   if bad_ext : bool then
     raise (ValueError (BadExtStoredir (default [] ext_storedir)))
   else
     let storedir := _storedir p in
     (fun fs =>
        if os_path_exists fs storedir then
          raise (ValueError (AlreadyWorkingCopy p)) fs
        else if os_path_exists fs p && negb (os_path_isdir fs p) then
          raise (ValueError (ExistsButNoDir p)) fs
        else if negb (os_path_exists fs p) then
          try_except (os_makedirs p)
            (fun e =>
               match e with
               | OSError EACCES => raise (ValueError (NoPermissionToCreate p))
               | _ => raise e
               end) fs
        else ret tt fs) ;;;
     writable <- test (fun fs => os_access_w fs p) ;;
     if negb writable then raise (ValueError (NoPermissionForStoredir p))
     else
       match ext_storedir with
       | Some ext => os_symlink ext storedir
       | None => os_mkdir storedir
       end ;;;
       os_mkdir (_storefile p _PKG_DATA))%io.

(** ** [WCLock]

    The lock is an advisory lock of the operating system on the lock
    file.  Besides the file system the world holds the lock files that
    other processes have locked; a process never waits for itself. *)
Record world := World { files : fsys; foreign : gset path }.

(** The object: [_fobj] is the open lock file while the lock is held. *)
Record WCLock := MkWCLock { _path : path; _fobj : option path }.

(** [WCLock(path)]: no lock is acquired. *)
Definition wc_lock (p : path) : WCLock := MkWCLock p None.

Definition has_lock (self : WCLock) : bool :=
  match _fobj self with
  | Some _ => true
  | None => false
  end.

(** How a call ends: it returns, it raises, or it waits for another
    process. *)
Inductive outcome :=
| Returned
| Raised (e : exn)
| Blocked.

Definition lock (self : WCLock) (w : world) : WCLock * world * outcome :=
  if has_lock self then (self, w, Raised (RuntimeError DoubleLock))
  else
    match open_w (_storefile (_path self) _LOCK) (files w) with
    | (fs', inl e) => (self, World fs' (foreign w), Raised e)
    | (fs', inr f) =>
        (* fcntl.lockf(f, fcntl.LOCK_EX) *)
        if bool_decide (f ∈ foreign w)
        then (self, World fs' (foreign w), Blocked)
        else (MkWCLock (_path self) (Some f), World fs' (foreign w), Returned)
    end.

Definition unlock (self : WCLock) (w : world) : WCLock * world * outcome :=
  if negb (has_lock self)
  then (self, w, Raised (RuntimeError UnacquiredRelease))
  else
    (* fcntl.lockf(self._fobj, fcntl.LOCK_UN); self._fobj.close() *)
    let self' := MkWCLock (_path self) None in
    match os_unlink (_storefile (_path self) _LOCK) (files w) with
    | (fs', inl e) => (self', World fs' (foreign w), Raised e)
    | (fs', inr _) => (self', World fs' (foreign w), Returned)
    end.

(** The test the loop applies to one name. *)
Definition is_missing (fs : fsys) (storedir : path) (dirs : bool) (p : string) : bool :=
  if dirs then negb (os_path_isdir fs (os_path_join storedir p))
  else negb (os_path_isfile fs (os_path_join storedir p)).

(** Directories and links are what a lookup goes through. *)
Definition is_dir_or_link (n : node) : bool :=
  match n with
  | File _ => false
  | _ => true
  end.

(** [fs'] has every directory and link of [fs]. *)
Definition keeps_dirs (fs fs' : fsys) : Prop :=
  forall x n, fs !! x = Some n -> is_dir_or_link n = true -> fs' !! x = Some n.

(** A path leads to the directory [q] with permission [w]. *)
Definition leads_to_dir (fs : fsys) (p q : path) (w : bool) : Prop :=
  exists fuel, walk MAXSYMLINKS false fs [] p = inr (fuel, q)
               /\ fs !! q = Some (Dir w).

(** A lookup can go through what is at [x]. *)
Definition passable (fs : fsys) (x : path) : bool :=
  match fs !! x with
  | Some n => is_dir_or_link n
  | None => false
  end.

(** [fs'] is [fs] with some more directories. *)
Definition adds_dirs (fs fs' : fsys) : Prop :=
  forall x : path, fs' !! x = fs !! x \/ (fs !! x = None /\ fs' !! x = Some (Dir true)).

(** The external store directory, when one is given, is a writable
    directory. *)
Definition ext_storedir_ok (fs : fsys) (ext_storedir : option path) : bool :=
  match ext_storedir with
  | Some ext => os_path_isdir fs ext && os_access_w fs ext
  | None => true
  end.

(** In a well-formed file system whatever exists is in a directory. *)
Definition parent_is_dir (fs : fsys) (k : path) : bool :=
  match split_last k with
  | None => true
  | Some (d, _) =>
      match fs !! d with
      | Some (Dir _) => true
      | _ => false
      end
  end.

Definition wf_fs (fs : fsys) : bool :=
  bool_decide (map_Forall (fun k _ => parent_is_dir fs k = true) fs).

Definition is_dir_node (n : node) : bool :=
  match n with
  | Dir _ => true
  | _ => false
  end.

(** [n] at [k] is a regular file or a link directly in the directory [d]. *)
Definition entry_in (d k : path) (n : node) : bool :=
  match split_last k with
  | Some (d', _) => bool_decide (d' = d) && negb (is_dir_node n)
  | None => false
  end.

(** The directory at [d] holds no regular file and no link: nothing
    was written into it. *)
Definition holds_no_entry (fs : fsys) (d : path) : bool :=
  bool_decide (map_Forall (fun k n => entry_in d k n = false) fs).

(** The external store directory, when one is given, holds no entry. *)
Definition ext_storedir_fresh (fs : fsys) (ext_storedir : option path) : bool :=
  match ext_storedir with
  | None => true
  | Some ext =>
      match realpath fs ext with
      | inr ep => holds_no_entry fs ep
      | inl _ => true
      end
  end.

(** The lock of the working copy at [p] can be taken at once: the store
    directory leads to a writable directory, what is there under the
    name of the lock file is nothing or a regular file, and no other
    process holds the lock. *)
Definition lockable (w : world) (p : path) : bool :=
  match realpath (files w) (_storedir p) with
  | inr sp =>
      match files w !! sp with
      | Some (Dir true) =>
          match files w !! (sp ++ [_LOCK]) with
          | None | Some (File _) => bool_decide (sp ++ [_LOCK] ∉ foreign w)
          | _ => false
          end
      | _ => false
      end
  | inl _ => false
  end.

(** [os.lstat]: the node under a name, the name itself not followed. *)
Definition lstat (fs : fsys) (p : path) : errno + node :=
  match lookup_slot fs p with
  | inl e => inl e
  | inr None =>
      match fs !! [] with
      | Some n => inr n
      | None => inl ENOENT
      end
  | inr (Some s) =>
      match slot_node s with
      | Some n => inr n
      | None => inl ENOENT
      end
  end.

(** [os.path.lexists] *)
Definition os_path_lexists (fs : fsys) (p : path) : bool :=
  match lstat fs p with
  | inr _ => true
  | inl _ => false
  end.

(** The store file is a regular file or does not exist. *)
Definition entry_free_or_file (fs : fsys) (p : path) (filename : string) : bool :=
  match lstat fs (_storefile p filename) with
  | inr (File _) => true
  | inr _ => false
  | inl _ => true
  end.

(** One of the candidate names of the temporary file is free in the
    store directory. *)
Definition tmp_name_free (env : io_env) (fs : fsys) (p : path) : bool :=
  existsb (fun n => negb (os_path_lexists fs (os_path_join (_storedir p) n)))
    (tmp_names env).

(** What a run of [_write_storefile] has put into the temporary file
    when it gets to the [finally] clause. *)
Definition written (env : io_env) (data : string) : string :=
  match write_fault env with
  | Some (k, _) => String.substring 0 k data
  | None =>
      match data with
      | EmptyString => EmptyString
      | String _ _ =>
          match newline_fault env with
          | Some (k, _) => String.append data (String.substring 0 k NL)
          | None => String.append data NL
          end
      end
  end.

(** How the [try] block of that run ends. *)
Definition try_outcome (env : io_env) (data : string) : exn + unit :=
  match write_fault env with
  | Some (_, e) => inl (IOError e)
  | None =>
      match data with
      | EmptyString => inr tt
      | String _ _ =>
          match newline_fault env with
          | Some (_, e) => inl (IOError e)
          | None => inr tt
          end
      end
  end.

(** ** Example file systems

    [/wc] is a working copy whose store holds a committed [_project];
    [/ext] is an empty writable directory; [/ro] is a directory that is
    not writable. *)
Definition fs_plain : fsys :=
  <[ ["ro"] := Dir false ]> (<[ ["ext"] := Dir true ]> (<[ [] := Dir true ]> ∅)).

Definition fs_wc : fsys :=
  <[ ["wc"; ".osc"; "_project"] := File "old" ]>
    (<[ ["wc"; ".osc"; "data"] := Dir true ]>
       (<[ ["wc"; ".osc"] := Dir true ]>
          (<[ ["wc"] := Dir true ]> fs_plain))).

(** The environment of a run without failure, and of a run where the
    first [write] fails after two characters because the disk is full. *)
Definition env_ok : io_env := IoEnv ["tmpAAA"; "tmpBBB"] None None None.
Definition env_full : io_env :=
  IoEnv ["tmpAAA"; "tmpBBB"] (Some (2, ENOSPC)) None None.

(** A world where no other process holds a lock, and the lock object
    of [/wc]. *)
Definition world_wc : world := World fs_wc ∅.

(** Closing the temporary file fails with an I/O error, and nothing of
    what was buffered has reached the file. *)
Definition env_close : io_env :=
  IoEnv ["tmpAAA"; "tmpBBB"] None None (Some (0, EIO)).

(** [/wc] as a project working copy. *)
Definition fs_prj : fsys :=
  <[ ["wc"; ".osc"; "_apiurl"] := File "https://api.example.org" ]> fs_wc.

(** [/wc] with a store directory that is not writable. *)
Definition fs_rostore : fsys :=
  <[ ["wc"; ".osc"] := Dir false ]> (<[ ["wc"] := Dir true ]> fs_plain).

(** [/wc] with a store directory and nothing in it. *)
Definition fs_empty_store : fsys :=
  <[ ["wc"; ".osc"] := Dir true ]> (<[ ["wc"] := Dir true ]> fs_plain).

(** No call on the file object fails. *)
Definition no_fault (env : io_env) : bool :=
  match write_fault env, newline_fault env, close_fault env with
  | None, None, None => true
  | _, _, _ => false
  end.

(** One of the candidate names of the temporary file is free in the
    store directory and is none of the names [avoid]. *)
Definition tmp_name_apart (env : io_env) (fs : fsys) (p : path)
    (avoid : list string) : bool :=
  existsb (fun n => negb (os_path_lexists fs (os_path_join (_storedir p) n))
                    && negb (bool_decide (n ∈ avoid)))
    (tmp_names env).

(** A command that, however it ends, leaves every node of the file
    system where and what it was. *)
Definition grows {A} (m : io A) : Prop :=
  forall fs fs' r, m fs = (fs', r) ->
    forall x n, fs !! x = Some n -> fs' !! x = Some n.

(** [/wc/file] is a regular file. *)
Definition fs_file : fsys := <[ ["wc"; "file"] := File "text" ]> fs_wc.

(** The store directory of [p] would lead to [ep] if it were a link to
    [ext]: the lookup of [p] leaves a link to follow, and [ext] is
    resolved with the links that are left after that one. *)
Definition link_leads (fs : fsys) (p ext ep : path) : bool :=
  match walk MAXSYMLINKS false fs [] p with
  | inr (S f, _) =>
      match walk f false fs [] ext with
      | inr (_, q) => bool_decide (q = ep)
      | inl _ => false
      end
  | _ => false
  end.

(** [/ext] is the store of [/wc], shared; [/two] is a directory. *)
Definition fs_shared : fsys :=
  <[ ["two"] := Dir true ]>
    (<[ ["ext"; "data"] := Dir true ]>
       (<[ ["wc"; ".osc"] := Symlink ["ext"] ]>
          (<[ ["wc"] := Dir true ]> fs_plain))).

(** ** The lock as a context manager

    [__enter__] locks and returns the object. *)
Definition __enter__ (self : WCLock) (w : world) : WCLock * world * outcome :=
  lock self w.

(** [__exit__] unlocks; the [False] it returns tells the [with]
    statement not to suppress a pending exception. *)
Definition __exit__ (self : WCLock) (w : world)
    : WCLock * world * outcome * bool :=
  (unlock self w, false).

(** [with wc_lock(path) as lock: body], for a body that works on the
    world and leaves the lock object alone.  A body that waits for ever
    never gets to [__exit__]; otherwise [__exit__] runs, and an
    exception it raises replaces the outcome of the body. *)
Definition with_wc_lock (p : path) (body : world -> world * outcome) (w : world)
    : WCLock * world * outcome :=
  match __enter__ (wc_lock p) w with
  | (h, w1, Returned) =>
      match body w1 with
      | (w2, Blocked) => (h, w2, Blocked)
      | (w2, r) =>
          match __exit__ h w2 with
          | (h', w3, Returned, suppress) =>
              (h', w3, if suppress : bool then Returned else r)
          | (h', w3, r', _) => (h', w3, r')
          end
      end
  | (h, w1, r) => (h, w1, r)
  end.

(** The lock file is a regular file in a writable store directory: it
    can be removed. *)
Definition unlockable (w : world) (p : path) : bool :=
  match lstat (files w) (_storefile p _LOCK) with
  | inr (File _) => os_access_w (files w) (_storedir p)
  | _ => false
  end.

(** A body that changes nothing and raises. *)
Definition body_raises (w : world) : world * outcome :=
  (w, Raised (ValueError (NoValidStorefile "_files"))).

(** One of the candidate names of the temporary file is not a name
    that the store uses itself. *)
Definition has_tmp_name (env : io_env) : bool :=
  existsb (fun n => negb (bool_decide (n ∈ _PKG_DATA :: entry_names)))
    (tmp_names env).

(** [/wc] where the name [_files] of the store is taken by a directory. *)
Definition fs_dir_entry : fsys :=
  <[ ["wc"; ".osc"; "_files"] := Dir true ]> fs_wc.

(** ** Path names as the caller writes them

    The paths above are absolute.  A process may also name a file
    relative to its working directory [cwd] (the physical path of a
    directory); for the system calls of this module that is the same
    as naming [cwd ++ p], with one exception: the text of a symbolic
    link is stored as it is given, and the kernel reads a relative
    text from the directory the link is in, not from the working
    directory of the process that made the link. *)
Inductive pathname :=
| Abs (p : path)
| Rel (p : path).

(** The file a process in [cwd] means by a path name. *)
Definition abspath (cwd : path) (name : pathname) : path :=
  match name with
  | Abs p => p
  | Rel p => cwd ++ p
  end.

(** The file a link with the text [text] in the physical directory [d]
    leads to.  A link node carries this path. *)
Definition link_target (d : path) (text : pathname) : path :=
  match text with
  | Abs t => t
  | Rel t => d ++ t
  end.

(** [os.symlink(text, linkpath)] with the text as the caller gives it. *)
Definition os_symlink_text (text : pathname) (linkpath : path) : io unit :=
  fun fs =>
    match lookup_slot fs linkpath with
    | inl e => (fs, inl (OSError e))
    | inr None => (fs, inl (OSError EEXIST))
    | inr (Some s) => os_symlink (link_target (slot_dir s) text) linkpath fs
    end.

(** [wc_init] in a process with the working directory [cwd], with
    [ext_storedir] as the caller gives it; [p] is the absolute form of
    [path].  The tests on [ext_storedir] are system calls of the
    process and look at [abspath cwd ext]; [os.symlink] gets the text.
    With an absolute [ext_storedir] this is [wc_init] above. *)
Definition wc_init_cwd (cwd p : path) (ext_storedir : option pathname) : io unit :=
  (bad_ext <- test (fun fs =>
     match ext_storedir with
     | Some ext => negb (os_path_isdir fs (abspath cwd ext))
                   || negb (os_access_w fs (abspath cwd ext))
     | None => false
     end) ;;
   if bad_ext : bool then
     raise (ValueError (BadExtStoredir (default [] (abspath cwd <$> ext_storedir))))
   else
     let storedir := _storedir p in
     (fun fs =>
        if os_path_exists fs storedir then
          raise (ValueError (AlreadyWorkingCopy p)) fs
        else if os_path_exists fs p && negb (os_path_isdir fs p) then
          raise (ValueError (ExistsButNoDir p)) fs
        else if negb (os_path_exists fs p) then
          try_except (os_makedirs p)
            (fun e =>
               match e with
               | OSError EACCES => raise (ValueError (NoPermissionToCreate p))
               | _ => raise e
               end) fs
        else ret tt fs) ;;;
     writable <- test (fun fs => os_access_w fs p) ;;
     if negb writable then raise (ValueError (NoPermissionForStoredir p))
     else
       match ext_storedir with
       | Some ext => os_symlink_text ext storedir
       | None => os_mkdir storedir
       end ;;;
       os_mkdir (_storefile p _PKG_DATA))%io.

(** [/ext] and [/wc/ext] are two empty writable directories. *)
Definition fs_two_ext : fsys :=
  <[ ["wc"; "ext"] := Dir true ]> (<[ ["wc"] := Dir true ]> fs_plain).

(** [/ext] is a writable directory, [/wc] a directory without [ext]. *)
Definition fs_one_ext : fsys := <[ ["wc"] := Dir true ]> fs_plain.

(** * Properties *)

(** ** [missing_storepaths] *)

Lemma missing_loop_filter fs storedir dirs paths acc :
  fold_left (missing_step fs storedir dirs) paths acc
  = acc ++ List.filter (is_missing fs storedir dirs) paths.
Proof.
  revert acc. induction paths as [|p paths IH]; intros acc; simpl.
  - by rewrite app_nil_r.
  - rewrite IH. unfold missing_step, is_missing.
    destruct dirs; simpl;
      match goal with |- context [negb ?b] => destruct b end; simpl;
      by rewrite <- ?app_assoc.
Qed.

Lemma filter_sublist {A} (f : A -> bool) (l : list A) :
  sublist (List.filter f l) l.
Proof.
  induction l as [|x l IH]; simpl.
  - constructor.
  - destruct (f x); by constructor.
Qed.

(** C9: without a store directory the names come back as they were
    given, whatever [dirs] and [data] are. *)
Theorem missing_storepaths_no_store (fs : fsys) (p : path) (paths : list string)
    (dirs data : bool) :
  _has_storedir fs p = false ->
  missing_storepaths fs p paths dirs data = paths.
Proof.
  intros H. unfold missing_storepaths. by rewrite H.
Qed.

(** C10: the result is a subsequence of the names given: the names
    keep their order, and nothing is returned that was not asked for. *)
Theorem missing_storepaths_sublist (fs : fsys) (p : path) (paths : list string)
    (dirs data : bool) :
  sublist (missing_storepaths fs p paths dirs data) paths
  /\ (forall x, x ∈ missing_storepaths fs p paths dirs data -> x ∈ paths).
Proof.
  assert (Hsub : sublist (missing_storepaths fs p paths dirs data) paths).
  { unfold missing_storepaths.
    destruct (negb (_has_storedir fs p)); [done|].
    rewrite missing_loop_filter. apply filter_sublist. }
  split; [done|].
  intros x Hx. by eapply elem_of_sublist.
Qed.

(** ** Classification *)

Lemma one_with_member (m : list string) (x : string) :
  (Nat.eqb (List.length m) 1 && bool_decide (x ∈ m)) = true <-> m = [x].
Proof.
  split.
  - intros [Hlen Hin]%andb_true_iff.
    apply Nat.eqb_eq in Hlen. apply bool_decide_eq_true in Hin.
    destruct m as [|y [|z m]]; simplify_eq/=.
    by apply list_elem_of_singleton in Hin as ->.
  - intros ->. simpl. apply bool_decide_eq_true. by apply list_elem_of_singleton.
Qed.

(** C2: a project working copy is one where exactly [_package] is
    missing, a package working copy one where nothing is, and no store
    is both. *)
Theorem wc_is_project_package_spec (fs : fsys) (p : path) :
  (wc_is_project fs p = true
   <-> missing_storepaths fs p ["_apiurl"; "_project"; "_package"] false false
       = ["_package"])
  /\ (wc_is_package fs p = true
      <-> missing_storepaths fs p ["_apiurl"; "_project"; "_package"] false false
          = [])
  /\ ~ (wc_is_project fs p = true /\ wc_is_package fs p = true).
Proof.
  unfold wc_is_project, wc_is_package, entry_names.
  set (m := missing_storepaths _ _ _ _ _).
  split; [|split].
  - case_bool_decide as Hm.
    + split; [done|]. by rewrite Hm.
    + destruct (Nat.eqb (List.length m) 1 && bool_decide ("_package" ∈ m)) eqn:E.
      * apply one_with_member in E. by split.
      * split; [done|]. intros Hm'. apply one_with_member in Hm'. congruence.
  - apply bool_decide_eq_true.
  - intros [H1 H2]. apply bool_decide_eq_true in H2.
    rewrite bool_decide_true in H1; done.
Qed.

(** ** Path resolution *)

Implicit Types (cr : bool) (fuel : nat) (cur rest a b p q d : path)
  (c name : string).

Lemma walk_nil fuel cr fs cur :
  walk fuel cr fs cur [] = inr (fuel, cur).
Proof. by destruct fuel. Qed.

Lemma walk_cons fuel cr fs cur c rest :
  walk fuel cr fs cur (c :: rest)
  = match fs !! cur with
    | Some (Dir _) =>
        match fs !! (cur ++ [c]) with
        | None =>
            match rest with
            | [] => if cr then inr (fuel, cur ++ [c]) else inl ENOENT
            | _ :: _ => inl ENOENT
            end
        | Some (Symlink t) =>
            match fuel with
            | O => inl ELOOP
            | S fuel' => walk fuel' cr fs [] (t ++ rest)
            end
        | Some _ => walk fuel cr fs (cur ++ [c]) rest
        end
    | Some _ => inl ENOTDIR
    | None => inl ENOENT
    end.
Proof. by destruct fuel. Qed.

(** Resolution is compositional: a path is resolved by resolving a
    prefix and then the rest from where the prefix led, with the fuel
    the prefix left. *)
Lemma walk_app fuel cr fs cur a b :
  b ≠ [] \/ cr = false ->
  walk fuel cr fs cur (a ++ b)
  = match walk fuel false fs cur a with
    | inl e => inl e
    | inr (fuel', q) => walk fuel' cr fs q b
    end.
Proof.
  intros Hb. revert cur a.
  induction fuel as [|fuel IHf]; intros cur a; revert cur;
    (induction a as [|c a IHa]; intros cur;
     [ by rewrite walk_nil | ]);
    rewrite <- app_comm_cons, !walk_cons;
    (destruct (fs !! cur) as [[| |]|]; try done);
    (destruct (fs !! (cur ++ [c])) as [[|w|t]|]; try done).
  - destruct a; simpl; [|done]. destruct b; [|done]. by destruct Hb as [ ? | -> ].
  - by rewrite app_assoc, IHf.
  - destruct a; simpl; [|done]. destruct b; [|done]. by destruct Hb as [ ? | -> ].
Qed.

Global Arguments walk : simpl never.

(** Following links only uses fuel up. *)
Lemma walk_fuel_le fuel cr fs cur rest fuel' q :
  walk fuel cr fs cur rest = inr (fuel', q) -> fuel' <= fuel.
Proof.
  revert cur rest.
  induction fuel as [|fuel IHf]; intros cur rest; revert cur;
    (induction rest as [|c rest IHr]; intros cur;
     [ rewrite walk_nil; by intros [= <- <-] | ]);
    rewrite walk_cons;
    (destruct (fs !! cur) as [[| |]|]; try done);
    (destruct (fs !! (cur ++ [c])) as [[|w|t]|]; try done); eauto;
    try (intros H%IHf; lia);
    (destruct rest; [destruct cr|]; try done; by intros [= <- <-]).
Qed.

(** A lookup that succeeds also succeeds, with the same result, when
    more links may be followed. *)
Lemma walk_fuel_mono fuel cr fs cur rest fuel' q k :
  walk fuel cr fs cur rest = inr (fuel', q) ->
  walk (fuel + k) cr fs cur rest = inr (fuel' + k, q).
Proof.
  revert cur rest.
  induction fuel as [|fuel IHf]; intros cur rest; revert cur;
    (induction rest as [|c rest IHr]; intros cur;
     [ rewrite !walk_nil; by intros [= <- <-] | ]);
    rewrite !walk_cons; simpl;
    (destruct (fs !! cur) as [[| |]|]; try done);
    (destruct (fs !! (cur ++ [c])) as [[|w|t]|]; try done); eauto;
    (destruct rest; [destruct cr|]; try done; by intros [= <- <-]).
Qed.

(** The lookup of a directory goes through directories and links only,
    so it is the same in every file system that has them all. *)
Lemma walk_dir_frame fuel fs fs' cur rest fuel' q w :
  keeps_dirs fs fs' ->
  walk fuel false fs cur rest = inr (fuel', q) ->
  fs !! q = Some (Dir w) ->
  walk fuel false fs' cur rest = inr (fuel', q).
Proof.
  intros Hk. revert cur rest.
  induction fuel as [|fuel IHf]; intros cur rest; revert cur;
    (induction rest as [|c rest IHr]; intros cur;
     [ rewrite !walk_nil; by intros [= <- <-] | ]);
    rewrite !walk_cons;
    (destruct (fs !! cur) as [[|wc|]|] eqn:Hcur; try done);
    rewrite (Hk _ _ Hcur eq_refl);
    (destruct (fs !! (cur ++ [c])) as [[z|w'|t]|] eqn:Hc;
     [ | rewrite (Hk _ _ Hc eq_refl); by apply IHr
       | rewrite (Hk _ _ Hc eq_refl); try done
       | by destruct rest ]).
  - destruct rest as [|c' rest].
    + rewrite walk_nil. intros [= <- <-] Hq. congruence.
    + rewrite walk_cons, Hc. done.
  - destruct rest as [|c' rest].
    + rewrite walk_nil. intros [= <- <-] Hq. congruence.
    + rewrite walk_cons, Hc. done.
  - by apply IHf.
Qed.

(** ** What the tests and system calls see *)

Lemma split_last_snoc d c : split_last (d ++ [c]) = Some (d, c).
Proof.
  induction d as [|x d IH]; simpl; [done|]. by rewrite IH.
Qed.

Lemma split_last_Some p d c : split_last p = Some (d, c) -> p = d ++ [c].
Proof.
  revert d. induction p as [|x p IH]; intros d; simpl; [done|].
  destruct (split_last p) as [[d' l]|] eqn:E.
  - intros [= <- <-]. simpl. f_equal. by apply IH.
  - intros [= <- <-]. by destruct p as [|y p]; [|simpl in E; destruct (split_last p) as [[??]|]].
Qed.

Lemma snoc_ne q c : q ++ [c] ≠ q.
Proof.
  intros H. apply (f_equal List.length) in H.
  rewrite length_app in H. simpl in H. lia.
Qed.

Lemma isdir_leads fs p :
  os_path_isdir fs p = true <-> exists q w, leads_to_dir fs p q w.
Proof.
  unfold os_path_isdir, stat, realpath, leads_to_dir. split.
  - destruct (walk _ _ _ _ _) as [e|[f q]]; [done|].
    destruct (fs !! q) as [[|w|]|] eqn:E; try done.
    intros _. by exists q, w, f.
  - intros (q & w & f & -> & ->). done.
Qed.

Lemma leads_to_dir_frame fs fs' p q w :
  keeps_dirs fs fs' -> leads_to_dir fs p q w -> leads_to_dir fs' p q w.
Proof.
  intros Hk (f & Hw & Hq). exists f. split.
  - by eapply walk_dir_frame.
  - by apply (Hk _ _ Hq).
Qed.

Lemma leads_to_dir_fun fs p q w q' w' :
  leads_to_dir fs p q w -> leads_to_dir fs p q' w' -> q = q' /\ w = w'.
Proof.
  intros (f & Hw & Hq) (f' & Hw' & Hq').
  rewrite Hw in Hw'. injection Hw' as <- <-.
  rewrite Hq in Hq'. by injection Hq' as <-.
Qed.

Lemma leads_isdir fs p q w : leads_to_dir fs p q w -> os_path_isdir fs p = true.
Proof. intros H. apply isdir_leads. eauto. Qed.

Lemma leads_access fs p q w : leads_to_dir fs p q w -> os_access_w fs p = w.
Proof.
  intros (f & Hw & Hq). unfold os_access_w, stat, realpath. by rewrite Hw, Hq.
Qed.

Lemma leads_realpath fs p q w : leads_to_dir fs p q w -> realpath fs p = inr q.
Proof. intros (f & Hw & Hq). unfold realpath. by rewrite Hw. Qed.

Lemma isdir_exists fs p : os_path_isdir fs p = true -> os_path_exists fs p = true.
Proof.
  unfold os_path_isdir, os_path_exists. by destruct (stat fs p) as [|[| |]].
Qed.

(** The walk of one more component below a directory. *)
Lemma walk_snoc fuel cr fs p c :
  walk fuel cr fs [] (p ++ [c])
  = match walk fuel false fs [] p with
    | inl e => inl e
    | inr (fuel', q) =>
        match fs !! q with
        | Some (Dir _) =>
            match fs !! (q ++ [c]) with
            | None => if cr then inr (fuel', q ++ [c]) else inl ENOENT
            | Some (Symlink t) =>
                match fuel' with
                | O => inl ELOOP
                | S fuel'' => walk fuel'' cr fs [] t
                end
            | Some _ => inr (fuel', q ++ [c])
            end
        | Some _ => inl ENOTDIR
        | None => inl ENOENT
        end
    end.
Proof.
  rewrite walk_app by (left; done).
  destruct (walk fuel false fs [] p) as [e|[f q]]; [done|].
  rewrite walk_cons.
  destruct (fs !! q) as [[| |]|]; try done.
  destruct (fs !! (q ++ [c])) as [[| |]|]; try done;
    try by rewrite walk_nil.
  destruct f; [done|]. by rewrite app_nil_r.
Qed.

(** Nothing exists below what does not exist. *)
Lemma not_exists_below fs p c :
  os_path_exists fs p = false -> os_path_exists fs (p ++ [c]) = false.
Proof.
  unfold os_path_exists, stat, realpath. rewrite walk_snoc.
  destruct (walk MAXSYMLINKS false fs [] p) as [e|[f q]]; [done|].
  destruct (fs !! q) as [[| |]|]; done.
Qed.

Lemma lookup_slot_snoc fs d c q w :
  leads_to_dir fs d q w ->
  lookup_slot fs (d ++ [c]) = inr (Some (Slot q w c (fs !! (q ++ [c])))).
Proof.
  intros (f & Hw & Hq). unfold lookup_slot.
  by rewrite split_last_snoc, Hw, Hq.
Qed.

Lemma lookup_slot_inv fs p s :
  lookup_slot fs p = inr (Some s) ->
  exists d, p = d ++ [slot_name s]
            /\ leads_to_dir fs d (slot_dir s) (slot_writable s)
            /\ slot_node s = fs !! slot_path s.
Proof.
  unfold lookup_slot.
  destruct (split_last p) as [[d c]|] eqn:E; [|done].
  apply split_last_Some in E as ->.
  destruct (walk _ _ _ _ _) as [e|[f q]] eqn:Hw; [done|].
  destruct (fs !! q) as [[|w|]|] eqn:Hq; try done.
  intros [= <-]. exists d. simpl. split; [done|]. split; [|done].
  exists f. done.
Qed.

(** File systems that keep the directories and links of another. *)
Lemma keeps_dirs_refl fs : keeps_dirs fs fs.
Proof. by intros x n. Qed.

Lemma keeps_dirs_trans fs1 fs2 fs3 :
  keeps_dirs fs1 fs2 -> keeps_dirs fs2 fs3 -> keeps_dirs fs1 fs3.
Proof. intros H1 H2 x n Hx Hn. eauto. Qed.

Lemma keeps_dirs_insert fs (x : path) (n : node) :
  passable fs x = false -> keeps_dirs fs (<[x := n]> fs).
Proof.
  unfold passable. intros Hx y m Hy Hm.
  destruct (decide (x = y)) as [->|Hne].
  - rewrite Hy in Hx. congruence.
  - by rewrite lookup_insert_ne.
Qed.

Lemma keeps_dirs_delete fs (x : path) :
  passable fs x = false -> keeps_dirs fs (delete x fs).
Proof.
  unfold passable. intros Hx y m Hy Hm.
  destruct (decide (x = y)) as [->|Hne].
  - rewrite Hy in Hx. congruence.
  - by rewrite lookup_delete_ne.
Qed.

(** ** Creating names *)

Lemma leads_snoc_dir fs d dq w c w' :
  leads_to_dir fs d dq w ->
  fs !! (dq ++ [c]) = Some (Dir w') ->
  leads_to_dir fs (d ++ [c]) (dq ++ [c]) w'.
Proof.
  intros (f & Hw & Hq) Hc. exists f. split; [|done].
  by rewrite walk_snoc, Hw, Hq, Hc.
Qed.

Lemma create_node_err p n fs fs' e :
  create_node p n fs = (fs', inl e) -> fs' = fs.
Proof.
  unfold create_node.
  destruct (lookup_slot fs p) as [|[s|]]; [congruence| |congruence].
  destruct (slot_node s); [congruence|].
  destruct (slot_writable s); congruence.
Qed.

Lemma create_node_ok p n fs fs' q :
  create_node p n fs = (fs', inr q) ->
  exists d c dq,
    p = d ++ [c] /\ leads_to_dir fs d dq true /\ q = dq ++ [c]
    /\ fs !! q = None /\ fs' = <[q := n]> fs.
Proof.
  unfold create_node.
  destruct (lookup_slot fs p) as [|[s|]] eqn:Hs; [done| |done].
  apply lookup_slot_inv in Hs as (d & -> & Hd & Hn).
  destruct (slot_node s) eqn:Hnode; [done|].
  destruct (slot_writable s) eqn:Hw; [|done].
  intros [= <- <-]. exists d, (slot_name s), (slot_dir s).
  repeat split; try done.
Qed.

Lemma adds_dirs_refl fs : adds_dirs fs fs.
Proof. intros x. by left. Qed.

Lemma adds_dirs_trans fs1 fs2 fs3 :
  adds_dirs fs1 fs2 -> adds_dirs fs2 fs3 -> adds_dirs fs1 fs3.
Proof.
  intros H1 H2 x. destruct (H1 x) as [E1|[E1 E1']], (H2 x) as [E2|[E2 E2']].
  - left. congruence.
  - right. split; congruence.
  - right. split; congruence.
  - congruence.
Qed.

Lemma adds_dirs_keeps fs fs' : adds_dirs fs fs' -> keeps_dirs fs fs'.
Proof.
  intros H x n Hx _. destruct (H x) as [E|[E _]]; congruence.
Qed.

Lemma adds_dirs_insert fs (q : path) :
  fs !! q = None -> adds_dirs fs (<[q := Dir true]> fs).
Proof.
  intros Hq x. destruct (decide (q = x)) as [<-|Hne].
  - right. by rewrite lookup_insert_eq.
  - left. by rewrite lookup_insert_ne.
Qed.

Lemma os_mkdir_err p fs fs' e : os_mkdir p fs = (fs', inl e) -> fs' = fs.
Proof.
  unfold os_mkdir. destruct (create_node _ _ _) as [fs1 [e1|q]] eqn:E; [|done].
  intros [= <- _]. by eapply create_node_err.
Qed.

Lemma os_mkdir_ok p fs fs' :
  os_mkdir p fs = (fs', inr tt) ->
  exists d c dq,
    p = d ++ [c] /\ leads_to_dir fs d dq true
    /\ fs !! (dq ++ [c]) = None /\ fs' = <[dq ++ [c] := Dir true]> fs.
Proof.
  unfold os_mkdir. destruct (create_node _ _ _) as [fs1 [e1|q]] eqn:E; [done|].
  intros [= <-]. apply create_node_ok in E as (d & c & dq & -> & Hd & -> & Hq & ->).
  by exists d, c, dq.
Qed.

Lemma os_mkdir_adds p fs fs' r : os_mkdir p fs = (fs', r) -> adds_dirs fs fs'.
Proof.
  destruct r as [e|[]]; intros H.
  - apply os_mkdir_err in H as ->. apply adds_dirs_refl.
  - apply os_mkdir_ok in H as (d & c & dq & _ & _ & Hq & ->).
    by apply adds_dirs_insert.
Qed.

Lemma os_mkdir_leads p fs fs' :
  os_mkdir p fs = (fs', inr tt) -> exists q, leads_to_dir fs' p q true.
Proof.
  intros H. pose proof (os_mkdir_adds _ _ _ _ H) as Ha.
  apply os_mkdir_ok in H as (d & c & dq & -> & Hd & Hq & ->).
  exists (dq ++ [c]). eapply leads_snoc_dir.
  - eapply leads_to_dir_frame; [|done]. by apply adds_dirs_keeps.
  - by rewrite lookup_insert_eq.
Qed.

Lemma makedirs_rev_adds rname fs fs' r :
  makedirs_rev rname fs = (fs', r) -> adds_dirs fs fs'.
Proof.
  revert fs fs' r. induction rname as [|tail rhead IH]; intros fs fs' r; simpl.
  - apply os_mkdir_adds.
  - unfold bind, test, try_except, ret, raise.
    destruct (negb (os_path_exists fs (reverse rhead))).
    + destruct (makedirs_rev rhead fs) as [fs1 [e|[]]] eqn:E;
        apply IH in E.
      * destruct e as [| |[]|]; try (intros [= <- _]; done).
        intros H%os_mkdir_adds. by eapply adds_dirs_trans.
      * intros H%os_mkdir_adds. by eapply adds_dirs_trans.
    + apply os_mkdir_adds.
Qed.

Lemma makedirs_rev_leads rname fs fs' :
  makedirs_rev rname fs = (fs', inr tt) ->
  exists q, leads_to_dir fs' (reverse rname) q true.
Proof.
  destruct rname as [|tail rhead]; simpl.
  - intros H. by apply os_mkdir_leads in H.
  - unfold bind, test, try_except, ret, raise. rewrite reverse_cons.
    destruct (negb (os_path_exists fs (reverse rhead))).
    + destruct (makedirs_rev rhead fs) as [fs1 [e|[]]].
      * destruct e as [| |[]|]; try done. apply os_mkdir_leads.
      * apply os_mkdir_leads.
    + apply os_mkdir_leads.
Qed.

Lemma os_makedirs_adds p fs fs' r : os_makedirs p fs = (fs', r) -> adds_dirs fs fs'.
Proof. apply makedirs_rev_adds. Qed.

Lemma os_makedirs_leads p fs fs' :
  os_makedirs p fs = (fs', inr tt) -> exists q, leads_to_dir fs' p q true.
Proof.
  unfold os_makedirs. intros H%makedirs_rev_leads.
  by rewrite reverse_involutive in H.
Qed.

Lemma os_symlink_ok target p fs fs' :
  os_symlink target p fs = (fs', inr tt) ->
  exists d c dq,
    p = d ++ [c] /\ leads_to_dir fs d dq true
    /\ fs !! (dq ++ [c]) = None /\ fs' = <[dq ++ [c] := Symlink target]> fs.
Proof.
  unfold os_symlink. destruct (create_node _ _ _) as [fs1 [e1|q]] eqn:E; [done|].
  intros [= <-]. apply create_node_ok in E as (d & c & dq & -> & Hd & -> & Hq & ->).
  by exists d, c, dq.
Qed.

(** ** [wc_init] *)

Lemma bad_ext_iff fs ext :
  match ext with
  | Some e => negb (os_path_isdir fs e) || negb (os_access_w fs e)
  | None => false
  end = negb (ext_storedir_ok fs ext).
Proof.
  destruct ext as [e|]; simpl; [|done].
  by destruct (os_path_isdir fs e), (os_access_w fs e).
Qed.

(** The stages of a successful [wc_init]. *)
Lemma wc_init_inv fs p ext fs' :
  wc_init p ext fs = (fs', inr tt) ->
  ext_storedir_ok fs ext = true
  /\ os_path_exists fs (_storedir p) = false
  /\ exists fs1 fs2,
      ((os_path_isdir fs p = true /\ fs1 = fs)
       \/ (os_path_exists fs p = false /\ os_makedirs p fs = (fs1, inr tt)))
      /\ os_access_w fs1 p = true
      /\ match ext with
         | Some e => os_symlink e (_storedir p)
         | None => os_mkdir (_storedir p)
         end fs1 = (fs2, inr tt)
      /\ os_mkdir (_storefile p _PKG_DATA) fs2 = (fs', inr tt).
Proof.
  unfold wc_init, bind, test, raise, ret, try_except.
  rewrite bad_ext_iff.
  destruct (ext_storedir_ok fs ext); simpl; [|done].
  destruct (os_path_exists fs (_storedir p)); [done|].
  destruct (os_path_exists fs p) eqn:Hex; simpl.
  - destruct (os_path_isdir fs p) eqn:Hdir; simpl; [|done].
    destruct (os_access_w fs p) eqn:Hacc; simpl; [|done].
    destruct ext as [e|].
    + destruct (os_symlink e (_storedir p) fs) as [fs2 [e'|[]]] eqn:Hst;
        [discriminate|].
      intros H. do 2 (split; [done|]). exists fs, fs2.
      split; [by left|]. by repeat split.
    + destruct (os_mkdir (_storedir p) fs) as [fs2 [e'|[]]] eqn:Hst;
        [discriminate|].
      intros H. do 2 (split; [done|]). exists fs, fs2.
      split; [by left|]. by repeat split.
  - destruct (os_makedirs p fs) as [fs1 [e|[]]] eqn:Hmk.
    { by destruct e as [| |[]|]. }
    destruct (os_access_w fs1 p) eqn:Hacc; simpl; [|done].
    destruct ext as [e|].
    + destruct (os_symlink e (_storedir p) fs1) as [fs2 [e'|[]]] eqn:Hst;
        [discriminate|].
      intros H. do 2 (split; [done|]). exists fs1, fs2.
      split; [by right|]. by repeat split.
    + destruct (os_mkdir (_storedir p) fs1) as [fs2 [e'|[]]] eqn:Hst;
        [discriminate|].
      intros H. do 2 (split; [done|]). exists fs1, fs2.
      split; [by right|]. by repeat split.
Qed.

Lemma has_storedir_exists fs p :
  _has_storedir fs p = true -> os_path_exists fs (_storedir p) = true.
Proof.
  unfold _has_storedir. intros [_ H]%andb_true_iff. by apply isdir_exists.
Qed.

(** C7: on a path that has a store, [wc_init] raises the error of a
    path that is a working copy already and the file system (the store
    directory, its data directory, every file in it) is what it was.
    With an external store directory the call fails as well, again
    without touching anything. *)
Theorem wc_init_already_working_copy (fs : fsys) (p : path) :
  _has_storedir fs p = true ->
  wc_init p None fs = (fs, inl (ValueError (AlreadyWorkingCopy p)))
  /\ forall ext, exists why,
       wc_init p (Some ext) fs = (fs, inl (ValueError why))
       /\ (why = AlreadyWorkingCopy p \/ why = BadExtStoredir ext).
Proof.
  intros H%has_storedir_exists. split.
  - unfold wc_init, bind, test, raise. simpl. by rewrite H.
  - intros ext. unfold wc_init, bind, test, raise.
    destruct (os_path_isdir fs ext), (os_access_w fs ext); simpl;
      rewrite ?H; eauto.
Qed.

(** A link in a directory leads where its target leads. *)
Lemma leads_via_link fs d dq w c t q w' :
  leads_to_dir fs d dq w ->
  fs !! (dq ++ [c]) = Some (Symlink t) ->
  leads_to_dir fs (d ++ [c]) q w' ->
  leads_to_dir fs t q w'.
Proof.
  intros (f & Hw & Hq) Hc (f' & Hw' & Hq').
  rewrite walk_snoc, Hw, Hq, Hc in Hw'.
  pose proof (walk_fuel_le _ _ _ _ _ _ _ Hw) as Hle.
  destruct f as [|f0]; [done|].
  apply (walk_fuel_mono _ _ _ _ _ _ _ (MAXSYMLINKS - f0)) in Hw'.
  replace (f0 + (MAXSYMLINKS - f0)) with MAXSYMLINKS in Hw' by lia.
  eexists. split; [exact Hw'|done].
Qed.

(** What a lookup finds with less fuel it finds with all of it. *)
Lemma walk_leads fuel fs t fuel' q q' w :
  fuel <= MAXSYMLINKS ->
  walk fuel false fs [] t = inr (fuel', q) ->
  leads_to_dir fs t q' w ->
  q = q'.
Proof.
  intros Hle Hw (f & Hw' & _).
  apply (walk_fuel_mono _ _ _ _ _ _ _ (MAXSYMLINKS - fuel)) in Hw.
  replace (fuel + (MAXSYMLINKS - fuel)) with MAXSYMLINKS in Hw by lia.
  congruence.
Qed.

Lemma snoc_inj (q q' : path) (c c' : string) :
  q ++ [c] = q' ++ [c'] -> q = q' /\ c = c'.
Proof. apply app_inj_tail. Qed.

(** The layout [wc_init] leaves behind: the path leads to a directory
    [rp], the store directory to a directory [sp] with the data
    directory in it, and [sp] is either the new directory [rp/.osc] or
    where the external store directory leads, with a link at
    [rp/.osc]. *)
Lemma wc_init_layout fs p ext fs' :
  wc_init p ext fs = (fs', inr tt) ->
  exists fs1 rp sp,
    adds_dirs fs fs1
    /\ keeps_dirs fs1 fs'
    /\ leads_to_dir fs' p rp true
    /\ leads_to_dir fs' (_storedir p) sp true
    /\ fs1 !! (rp ++ [_STORE]) = None
    /\ fs1 !! (sp ++ [_PKG_DATA]) = None
    /\ match ext with
       | None =>
           sp = rp ++ [_STORE]
           /\ fs' = <[sp ++ [_PKG_DATA] := Dir true]> (<[sp := Dir true]> fs1)
       | Some e =>
           leads_to_dir fs' e sp true
           /\ fs' = <[sp ++ [_PKG_DATA] := Dir true]>
                      (<[rp ++ [_STORE] := Symlink e]> fs1)
       end.
Proof.
  intros (Hext & Hnost & fs1 & fs2 & Hprep & Hacc & Hst & Hdata)%wc_init_inv.
  assert (adds_dirs fs fs1) as Hadd.
  { destruct Hprep as [[_ ->]|[_ Hmk]]; [apply adds_dirs_refl|].
    by eapply os_makedirs_adds. }
  apply os_mkdir_ok in Hdata as (d & c & sp & Hd & Hsp & Hnone & ->).
  apply snoc_inj in Hd as [<- <-].
  assert (keeps_dirs fs2 (<[sp ++ [_PKG_DATA] := Dir true]> fs2)) as Hk2.
  { apply keeps_dirs_insert. unfold passable. by rewrite Hnone. }
  destruct ext as [e|].
  - apply os_symlink_ok in Hst as (d & c & rp & Hd & Hrp & Hn1 & ->).
    apply snoc_inj in Hd as [<- <-].
    assert (keeps_dirs fs1 (<[rp ++ [_STORE] := Symlink e]> fs1)) as Hk1.
    { apply keeps_dirs_insert. unfold passable. by rewrite Hn1. }
    exists fs1, rp, sp. split; [done|].
    split; [by eapply keeps_dirs_trans|].
    split; [eapply leads_to_dir_frame; [|exact Hrp]; by eapply keeps_dirs_trans|].
    split; [by eapply leads_to_dir_frame|].
    split; [done|].
    assert (fs1 !! (sp ++ [_PKG_DATA]) = None) as Hn0.
    { rewrite lookup_insert_ne in Hnone; [done|].
      intros [_ [=]]%snoc_inj. }
    split; [done|]. split; [|done].
    eapply leads_to_dir_frame; [exact Hk2|].
    eapply leads_via_link; [| |exact Hsp].
    + eapply leads_to_dir_frame; [exact Hk1|exact Hrp].
    + by rewrite lookup_insert_eq.
  - apply os_mkdir_ok in Hst as (d & c & rp & Hd & Hrp & Hn1 & ->).
    apply snoc_inj in Hd as [<- <-].
    assert (keeps_dirs fs1 (<[rp ++ [_STORE] := Dir true]> fs1)) as Hk1.
    { apply keeps_dirs_insert. unfold passable. by rewrite Hn1. }
    assert (leads_to_dir (<[rp ++ [_STORE] := Dir true]> fs1)
              (_storedir p) (rp ++ [_STORE]) true) as Hsd.
    { eapply leads_snoc_dir.
      - eapply leads_to_dir_frame; [exact Hk1|exact Hrp].
      - by rewrite lookup_insert_eq. }
    destruct (leads_to_dir_fun _ _ _ _ _ _ Hsp Hsd) as [-> _].
    exists fs1, rp, (rp ++ [_STORE]). split; [done|].
    split; [by eapply keeps_dirs_trans|].
    split; [eapply leads_to_dir_frame; [|exact Hrp]; by eapply keeps_dirs_trans|].
    split; [by eapply leads_to_dir_frame|].
    split; [done|]. split; [|done].
    rewrite lookup_insert_ne in Hnone; [done|]. apply not_eq_sym, snoc_ne.
Qed.

(** ** A store without entries *)

Lemma wf_fs_child fs q c n :
  wf_fs fs = true -> fs !! (q ++ [c]) = Some n ->
  exists w, fs !! q = Some (Dir w).
Proof.
  intros Hwf%bool_decide_eq_true Hc.
  specialize (Hwf _ _ Hc). unfold parent_is_dir in Hwf.
  rewrite split_last_snoc in Hwf.
  destruct (fs !! q) as [[|w|]|]; try done. by exists w.
Qed.

Lemma wf_fs_no_child fs q c :
  wf_fs fs = true -> fs !! q = None -> fs !! (q ++ [c]) = None.
Proof.
  intros Hwf Hq. destruct (fs !! (q ++ [c])) as [n|] eqn:Hc; [|done].
  destruct (wf_fs_child _ _ _ _ Hwf Hc) as [w Hw]. congruence.
Qed.

Lemma wf_fs_insert fs q w c n :
  wf_fs fs = true -> fs !! q = Some (Dir w) -> fs !! (q ++ [c]) = None ->
  wf_fs (<[q ++ [c] := n]> fs) = true.
Proof.
  intros Hwf Hq Hnone. apply bool_decide_eq_true.
  intros k m Hk. unfold parent_is_dir.
  destruct (split_last k) as [[d l]|] eqn:Hs; [|done].
  apply split_last_Some in Hs as ->.
  destruct (decide (q ++ [c] = d ++ [l])) as [Heq|Hne].
  - apply snoc_inj in Heq as [<- <-].
    rewrite lookup_insert_ne by apply snoc_ne. by rewrite Hq.
  - rewrite lookup_insert_ne in Hk by done.
    destruct (wf_fs_child _ _ _ _ Hwf Hk) as [w' Hd].
    rewrite lookup_insert_ne; [by rewrite Hd|].
    intros <-. congruence.
Qed.

Lemma holds_no_entry_child fs d c n :
  holds_no_entry fs d = true -> fs !! (d ++ [c]) = Some n ->
  exists w, n = Dir w.
Proof.
  intros H%bool_decide_eq_true Hc. specialize (H _ _ Hc).
  unfold entry_in in H. rewrite split_last_snoc in H.
  rewrite bool_decide_true in H by done.
  destruct n as [|w|]; try done. by exists w.
Qed.

Lemma create_node_wf p n fs fs' r :
  wf_fs fs = true -> create_node p n fs = (fs', r) -> wf_fs fs' = true.
Proof.
  intros Hwf. destruct r as [e|q]; intros H.
  - by apply create_node_err in H as ->.
  - apply create_node_ok in H as (d & c & dq & _ & (f & _ & Hd) & -> & Hn & ->).
    by eapply wf_fs_insert.
Qed.

Lemma os_mkdir_wf p fs fs' r :
  wf_fs fs = true -> os_mkdir p fs = (fs', r) -> wf_fs fs' = true.
Proof.
  unfold os_mkdir. intros Hwf.
  destruct (create_node _ _ _) as [fs1 [e|q]] eqn:E;
    intros [= <- _]; by eapply create_node_wf.
Qed.

Lemma makedirs_rev_wf rname fs fs' r :
  wf_fs fs = true -> makedirs_rev rname fs = (fs', r) -> wf_fs fs' = true.
Proof.
  revert fs fs' r. induction rname as [|tail rhead IH]; intros fs fs' r Hwf; simpl.
  - by apply os_mkdir_wf.
  - unfold bind, test, try_except, ret, raise.
    destruct (negb (os_path_exists fs (reverse rhead))).
    + destruct (makedirs_rev rhead fs) as [fs1 [e|[]]] eqn:E;
        apply IH in E; try done.
      * destruct e as [| |[]|]; try (intros [= <- _]; done).
        by apply os_mkdir_wf.
      * by apply os_mkdir_wf.
    + by apply os_mkdir_wf.
Qed.

(** What [wc_init] leaves in the store directory: the data directory,
    and besides it nothing but directories and, with an external store
    directory that is the path itself, the link to it. *)
Lemma wc_init_no_entries fs p ext fs' :
  wf_fs fs = true ->
  ext_storedir_fresh fs ext = true ->
  wc_init p ext fs = (fs', inr tt) ->
  exists rp sp,
    leads_to_dir fs' p rp true
    /\ leads_to_dir fs' (_storedir p) sp true
    /\ fs' !! (sp ++ [_PKG_DATA]) = Some (Dir true)
    /\ forall c n, fs' !! (sp ++ [c]) = Some n ->
         (exists w, n = Dir w)
         \/ (exists t q w, n = Symlink t /\ leads_to_dir fs' t q w).
Proof.
  intros Hwf Hfresh Hinit.
  pose proof Hinit as (Hext & _)%wc_init_inv.
  apply wc_init_layout in Hinit
    as (fs1 & rp & sp & Hadd & Hkeep & Hrp & Hsd & Hn1 & Hn2 & Hshape).
  exists rp, sp. split; [done|]. split; [done|].
  destruct ext as [e|].
  - destruct Hshape as [He ->].
    split; [apply lookup_insert_eq|].
    intros c n Hc.
    destruct (decide (c = _PKG_DATA)) as [->|Hcd].
    { rewrite lookup_insert_eq in Hc. injection Hc as <-. left. by exists true. }
    rewrite lookup_insert_ne in Hc by (intros [_ ?]%snoc_inj; congruence).
    destruct (decide (rp ++ [_STORE] = sp ++ [c])) as [Heq|Hne].
    { rewrite Heq, lookup_insert_eq in Hc. injection Hc as <-.
      right. by exists e, sp, true. }
    rewrite lookup_insert_ne in Hc by done.
    destruct (Hadd (sp ++ [c])) as [Hsame|[_ Hnew]].
    + rewrite Hsame in Hc. left.
      apply andb_true_iff in Hext as [Hdir _].
      apply isdir_leads in Hdir as (ep & w & Hep).
      unfold ext_storedir_fresh in Hfresh.
      rewrite (leads_realpath _ _ _ _ Hep) in Hfresh.
      assert (leads_to_dir
                (<[sp ++ [_PKG_DATA] := Dir true]>
                   (<[rp ++ [_STORE] := Symlink e]> fs1)) e ep w) as Hep'.
      { eapply leads_to_dir_frame; [|exact Hep].
        eapply keeps_dirs_trans; [by apply adds_dirs_keeps|done]. }
      destruct (leads_to_dir_fun _ _ _ _ _ _ Hep' He) as [-> _].
      by eapply holds_no_entry_child.
    + rewrite Hnew in Hc. injection Hc as <-. left. by exists true.
  - destruct Hshape as [-> ->].
    split; [apply lookup_insert_eq|].
    intros c n Hc.
    destruct (decide (c = _PKG_DATA)) as [->|Hcd].
    { rewrite lookup_insert_eq in Hc. injection Hc as <-. left. by exists true. }
    rewrite lookup_insert_ne in Hc by (intros [_ ?]%snoc_inj; congruence).
    rewrite lookup_insert_ne in Hc by apply not_eq_sym, snoc_ne.
    destruct (Hadd ((rp ++ [_STORE]) ++ [c])) as [Hsame|[_ Hnew]].
    + rewrite Hsame in Hc.
      destruct (wf_fs_child _ _ _ _ Hwf Hc) as [w Hw].
      destruct (Hadd (rp ++ [_STORE])) as [Hs|[Hs _]]; congruence.
    + rewrite Hnew in Hc. injection Hc as <-. left. by exists true.
Qed.

(** In a directory without entries no name is a file. *)
Lemma no_entry_not_file fs sd sp w c :
  leads_to_dir fs sd sp w ->
  (forall n, fs !! (sp ++ [c]) = Some n ->
     (exists w', n = Dir w')
     \/ (exists t q w', n = Symlink t /\ leads_to_dir fs t q w')) ->
  os_path_isfile fs (sd ++ [c]) = false.
Proof.
  intros (f & Hw & Hq) Hc.
  pose proof (walk_fuel_le _ _ _ _ _ _ _ Hw) as Hle.
  unfold os_path_isfile, stat, realpath. rewrite walk_snoc, Hw, Hq.
  destruct (fs !! (sp ++ [c])) as [n|] eqn:Hn; [|done].
  destruct (Hc n eq_refl) as [[w' ->]|(t & q & w' & -> & Ht)].
  - by rewrite Hn.
  - destruct f as [|f0]; [done|].
    destruct (walk f0 false fs [] t) as [e|[f1 q1]] eqn:Hwt; [done|].
    assert (q1 = q) as -> by (eapply walk_leads; [|exact Hwt|exact Ht]; lia).
    destruct Ht as (_ & _ & ->). done.
Qed.

Lemma filter_all {A} (f : A -> bool) (l : list A) :
  (forall x, f x = true) -> List.filter f l = l.
Proof.
  intros H. induction l as [|x l IH]; simpl; [done|]. by rewrite H, IH.
Qed.

(** When no name is a file in the store directory, every name asked
    for is missing. *)
Lemma missing_storepaths_all fs p paths :
  (forall c, os_path_isfile fs (_storefile p c) = false) ->
  missing_storepaths fs p paths false false = paths.
Proof.
  intros H. unfold missing_storepaths.
  destruct (negb (_has_storedir fs p)); [done|].
  rewrite missing_loop_filter. simpl. apply filter_all.
  intros c. specialize (H c). unfold _storefile in H.
  unfold is_missing. by rewrite H.
Qed.

(** C5: after [wc_init] returned and before anything is written (the
    external store directory, when there is one, holds no entry), the
    path has its store directory and the data directory in it, it is
    neither a project nor a package working copy, and reading any
    store file raises the error of a store file that is not valid (not
    the error of a path without store directory). *)
Theorem wc_init_fresh_store (fs : fsys) (p : path) (ext : option path) (fs' : fsys) :
  wf_fs fs = true ->
  ext_storedir_fresh fs ext = true ->
  wc_init p ext fs = (fs', inr tt) ->
  _has_storedir fs' p = true
  /\ os_path_isdir fs' (_storefile p _PKG_DATA) = true
  /\ wc_is_project fs' p = false
  /\ wc_is_package fs' p = false
  /\ forall filename,
       _read_storefile p filename fs'
       = (fs', inl (ValueError (NoValidStorefile filename))).
Proof.
  intros Hwf Hfresh Hinit.
  destruct (wc_init_no_entries _ _ _ _ Hwf Hfresh Hinit)
    as (rp & sp & Hrp & Hsd & Hdata & Hno).
  assert (forall c, os_path_isfile fs' (_storefile p c) = false) as Hnofile.
  { intros c. eapply no_entry_not_file; [exact Hsd|]. intros n. apply Hno. }
  split.
  { unfold _has_storedir.
    by rewrite (leads_isdir _ _ _ _ Hrp), (leads_isdir _ _ _ _ Hsd). }
  split.
  { eapply leads_isdir, leads_snoc_dir; [exact Hsd|exact Hdata]. }
  unfold wc_is_project, wc_is_package.
  rewrite (missing_storepaths_all _ _ entry_names Hnofile).
  split; [done|]. split; [done|].
  intros filename. unfold _read_storefile, bind, test, raise.
  by rewrite (missing_storepaths_all _ _ [filename] Hnofile).
Qed.

(** ** [WCLock] *)

Lemma realpath_leads fs p q w :
  realpath fs p = inr q -> fs !! q = Some (Dir w) -> leads_to_dir fs p q w.
Proof.
  unfold realpath. intros Hr Hq.
  destruct (walk MAXSYMLINKS false fs [] p) as [e|[f q']] eqn:Hw; [done|].
  injection Hr as ->. by exists f.
Qed.

(** Opening for writing a name that is free or a regular file in a
    writable directory leaves an empty file there. *)
Lemma open_w_snoc fs d q c :
  leads_to_dir fs d q true ->
  passable fs (q ++ [c]) = false ->
  open_w (d ++ [c]) fs = (<[q ++ [c] := File EmptyString]> fs, inr (q ++ [c])).
Proof.
  intros (f & Hw & Hq) Hc. unfold passable in Hc. unfold open_w.
  rewrite walk_snoc, Hw, Hq.
  destruct (fs !! (q ++ [c])) as [[x| |]|] eqn:Hn; try done.
  - by rewrite Hn.
  - by rewrite Hn, split_last_snoc, Hq.
Qed.

(** Unlinking a regular file in a writable directory removes it. *)
Lemma os_unlink_file fs d q c x :
  leads_to_dir fs d q true ->
  fs !! (q ++ [c]) = Some (File x) ->
  os_unlink (d ++ [c]) fs = (delete (q ++ [c]) fs, inr tt).
Proof.
  intros Hd Hc. unfold os_unlink.
  rewrite (lookup_slot_snoc _ _ c _ _ Hd). simpl. by rewrite Hc.
Qed.

(** C4: locking a lock that is held raises the error of a double lock
    at once: nothing is opened, nothing is waited for.  Unlocking a
    lock that is not held raises the error of an unacquired lock.  And
    where the lock can be taken, locking, unlocking and locking again
    all return, with the lock held at the end. *)
Theorem lock_unlock_protocol (self : WCLock) (w : world) :
  (has_lock self = true ->
     lock self w = (self, w, Raised (RuntimeError DoubleLock)))
  /\ (has_lock self = false ->
        unlock self w = (self, w, Raised (RuntimeError UnacquiredRelease)))
  /\ (has_lock self = false ->
      lockable w (_path self) = true ->
      exists h1 w1 h2 w2 h3 w3,
        lock self w = (h1, w1, Returned) /\ has_lock h1 = true
        /\ unlock h1 w1 = (h2, w2, Returned) /\ has_lock h2 = false
        /\ lock h2 w2 = (h3, w3, Returned) /\ has_lock h3 = true).
Proof.
  split; [|split].
  - intros H. unfold lock. by rewrite H.
  - intros H. unfold unlock. by rewrite H.
  - destruct self as [p fobj], w as [fs fr]. unfold has_lock, lockable. simpl.
    intros Hfree Hl. destruct fobj; [done|].
    destruct (realpath fs (_storedir p)) as [e|sp] eqn:Hr; [done|].
    destruct (fs !! sp) as [[|[]|]|] eqn:Hsp; try done.
    assert (passable fs (sp ++ [_LOCK]) = false
            /\ sp ++ [_LOCK] ∉ fr) as [Hpass Hnot].
    { unfold passable.
      destruct (fs !! (sp ++ [_LOCK])) as [[| |]|]; try done;
        by apply bool_decide_eq_true in Hl. }
    clear Hl.
    pose proof (realpath_leads _ _ _ _ Hr Hsp) as Hsd.
    set (lp := sp ++ [_LOCK]) in *.
    set (fs1 := <[lp := File EmptyString]> fs).
    assert (leads_to_dir fs1 (_storedir p) sp true) as Hsd1.
    { eapply leads_to_dir_frame; [|exact Hsd]. by apply keeps_dirs_insert. }
    assert (fs1 !! lp = Some (File EmptyString)) as Hlp1 by apply lookup_insert_eq.
    set (fs2 := delete lp fs1).
    assert (leads_to_dir fs2 (_storedir p) sp true) as Hsd2.
    { eapply leads_to_dir_frame; [|exact Hsd1].
      apply keeps_dirs_delete. unfold passable. by rewrite Hlp1. }
    assert (passable fs2 lp = false) as Hpass2.
    { unfold passable, fs2. by rewrite lookup_delete_eq. }
    exists (MkWCLock p (Some lp)), (World fs1 fr),
           (MkWCLock p None), (World fs2 fr),
           (MkWCLock p (Some lp)), (World (<[lp := File EmptyString]> fs2) fr).
    unfold lock, unlock, has_lock, _storefile, os_path_join. simpl.
    rewrite (open_w_snoc _ _ _ _ Hsd Hpass).
    rewrite (os_unlink_file _ _ _ _ _ Hsd1 Hlp1).
    rewrite (open_w_snoc _ _ _ _ Hsd2 Hpass2).
    fold lp. rewrite bool_decide_false by (intros ?; done).
    done.
Qed.

(** ** Writing a store file *)

Lemma lstat_snoc fs d q w c :
  leads_to_dir fs d q w ->
  lstat fs (d ++ [c])
  = match fs !! (q ++ [c]) with
    | Some n => inr n
    | None => inl ENOENT
    end.
Proof.
  intros Hd. unfold lstat. by rewrite (lookup_slot_snoc _ _ c _ _ Hd).
Qed.

Lemma entry_free_or_file_passable fs p sp w filename :
  leads_to_dir fs (_storedir p) sp w ->
  entry_free_or_file fs p filename = true ->
  passable fs (sp ++ [filename]) = false.
Proof.
  intros Hsd. unfold entry_free_or_file, _storefile, os_path_join, passable.
  rewrite (lstat_snoc _ _ _ _ _ Hsd).
  by destruct (fs !! (sp ++ [filename])) as [[| |]|].
Qed.

(** The temporary file is created under the first candidate name that
    is free. *)
Lemma NamedTemporaryFile_ok names fs d q :
  leads_to_dir fs d q true ->
  existsb (fun n => negb (os_path_lexists fs (os_path_join d n))) names = true ->
  exists n,
    fs !! (q ++ [n]) = None
    /\ NamedTemporaryFile names d fs
       = (<[q ++ [n] := File EmptyString]> fs, inr (TmpFile (d ++ [n]) (q ++ [n]))).
Proof.
  intros Hd. induction names as [|n names IH]; simpl; [done|].
  unfold create_node, os_path_lexists, os_path_join.
  rewrite (lstat_snoc _ _ _ _ _ Hd), (lookup_slot_snoc _ _ n _ _ Hd). simpl.
  destruct (fs !! (q ++ [n])) as [m|] eqn:Hn; simpl.
  - apply IH.
  - intros _. by exists n.
Qed.

(** Renaming a regular file over a name of the same directory that is
    free or a regular file. *)
Lemma os_rename_file fs d q n filename content :
  leads_to_dir fs d q true ->
  fs !! (q ++ [n]) = Some (File content) ->
  passable fs (q ++ [filename]) = false ->
  exists fs',
    os_rename (d ++ [n]) (d ++ [filename]) fs = (fs', inr tt)
    /\ fs' !! (q ++ [filename]) = Some (File content)
    /\ (n <> filename -> fs' !! (q ++ [n]) = None)
    /\ (forall x, x <> q ++ [n] -> x <> q ++ [filename] -> fs' !! x = fs !! x).
Proof.
  intros Hd Hn Hf. unfold passable in Hf. unfold os_rename.
  rewrite (lookup_slot_snoc _ _ n _ _ Hd), (lookup_slot_snoc _ _ filename _ _ Hd).
  simpl. rewrite Hn. unfold slot_path. simpl.
  destruct (fs !! (q ++ [filename])) as [[x| |]|] eqn:Hfn; try done;
    (case_bool_decide as Heq;
     [ apply snoc_inj in Heq as [_ ->]; exists fs; repeat split; try done;
       by rewrite Hn in Hfn
     | eexists; split; [done|]; split; [apply lookup_insert_eq|]; split;
       [ intros Hne; rewrite lookup_insert_ne by (intros [_ ?]%snoc_inj; congruence);
         apply lookup_delete_eq
       | intros y Hy1 Hy2; rewrite lookup_insert_ne by done;
         by rewrite lookup_delete_ne ] ]).
Qed.

(** The [try] block: whatever fails, the temporary file holds what was
    written before. *)
Lemma try_block env fs (tq : path) data :
  (file_write (write_fault env) tq data ;;;
   match data with
   | EmptyString => ret tt
   | String _ _ => file_write (newline_fault env) tq NL
   end)%io (<[tq := File EmptyString]> fs)
  = (<[tq := File (written env data)]> fs, try_outcome env data).
Proof.
  unfold bind, file_write, written, try_outcome, ret.
  rewrite lookup_insert_eq.
  destruct (write_fault env) as [[k e]|]; simpl.
  { by rewrite insert_insert_eq. }
  destruct data as [|a data]; simpl.
  { by rewrite insert_insert_eq. }
  rewrite lookup_insert_eq.
  destruct (newline_fault env) as [[k e]|]; simpl;
    by rewrite !insert_insert_eq.
Qed.

(** What a run of [_write_storefile] does when the store directory is
    writable, the store file is free or a regular file, a temporary
    name is free and closing the temporary file works: the [finally]
    clause renames the temporary file to the store file, so the store
    file holds what the [try] block wrote, however that block ended. *)
Lemma write_storefile_effect env fs p filename data :
  _has_storedir fs p = true ->
  os_access_w fs (_storedir p) = true ->
  entry_free_or_file fs p filename = true ->
  tmp_name_free env fs p = true ->
  close_fault env = None ->
  exists fs' sp,
    _write_storefile env p filename data fs = (fs', try_outcome env data)
    /\ leads_to_dir fs' (_storedir p) sp true
    /\ fs' !! (sp ++ [filename]) = Some (File (written env data))
    /\ (forall x, x <> sp ++ [filename] -> fs' !! x = fs !! x)
    /\ keeps_dirs fs fs'.
Proof.
  intros Hhas Hacc Hentry Htmp Hclose.
  pose proof Hhas as [_ Hsd]%andb_true_iff.
  apply isdir_leads in Hsd as (sp & w & Hsd).
  rewrite (leads_access _ _ _ _ Hsd) in Hacc. subst w.
  pose proof (entry_free_or_file_passable _ _ _ _ _ Hsd Hentry) as Hpass.
  destruct (NamedTemporaryFile_ok _ _ _ _ Hsd Htmp) as (n & Hfree & Hmk).
  set (tq := sp ++ [n]) in *.
  set (fsb := <[tq := File (written env data)]> fs).
  assert (keeps_dirs fs fsb) as Hkb.
  { apply keeps_dirs_insert. unfold passable. by rewrite Hfree. }
  assert (fsb !! tq = Some (File (written env data))) as Htq
    by apply lookup_insert_eq.
  assert (passable fsb (sp ++ [filename]) = false) as Hpassb.
  { unfold passable, fsb. destruct (decide (tq = sp ++ [filename])) as [<-|Hne].
    - by rewrite lookup_insert_eq.
    - by rewrite lookup_insert_ne. }
  destruct (os_rename_file _ _ _ _ _ _
              (leads_to_dir_frame _ _ _ _ _ Hkb Hsd) Htq Hpassb)
    as (fs' & Hren & Htarget & Hgone & Hframe).
  assert (forall x, x <> sp ++ [filename] -> fs' !! x = fs !! x) as Hrest.
  { intros x Hx. destruct (decide (x = tq)) as [->|Hne].
    - rewrite Hfree. apply Hgone. intros ->. by apply Hx.
    - rewrite Hframe by done. unfold fsb. by rewrite lookup_insert_ne. }
  assert (keeps_dirs fs fs') as Hk.
  { intros x m Hx Hm.
    assert (x <> tq) by (intros ->; congruence).
    assert (x <> sp ++ [filename]).
    { intros ->. unfold passable in Hpass. rewrite Hx in Hpass. congruence. }
    rewrite Hframe by done. unfold fsb. by rewrite lookup_insert_ne. }
  exists fs', sp. split; [|split; [by eapply leads_to_dir_frame|done]].
  unfold _write_storefile, bind at 1, test. rewrite Hhas. simpl.
  rewrite Hmk. unfold try_finally. simpl.
  rewrite try_block. fold fsb.
  unfold bind, file_close. rewrite Hclose. unfold ret.
  unfold _storefile, os_path_join. by rewrite Hren.
Qed.

(** ** Writing and reading a store file *)

Lemma stat_snoc_file fs d q w c x :
  leads_to_dir fs d q w -> fs !! (q ++ [c]) = Some (File x) ->
  stat fs (d ++ [c]) = inr (File x).
Proof.
  intros (f & Hw & Hq) Hc. unfold stat, realpath.
  rewrite walk_snoc, Hw, Hq, Hc. by rewrite Hc.
Qed.

Lemma keeps_dirs_has_storedir fs fs' p :
  keeps_dirs fs fs' -> _has_storedir fs p = true -> _has_storedir fs' p = true.
Proof.
  unfold _has_storedir. intros Hk [H1 H2]%andb_true_iff.
  apply isdir_leads in H1 as (q1 & w1 & H1).
  apply isdir_leads in H2 as (q2 & w2 & H2).
  apply andb_true_iff; split; eapply leads_isdir, leads_to_dir_frame; eauto.
Qed.

(** Reading a store file that is a regular file gives its content
    without the white space around it. *)
Lemma read_storefile_file fs p sp w filename content :
  _has_storedir fs p = true ->
  leads_to_dir fs (_storedir p) sp w ->
  fs !! (sp ++ [filename]) = Some (File content) ->
  _read_storefile p filename fs = (fs, inr (strip content)).
Proof.
  intros Hhas Hsd Hc.
  pose proof (stat_snoc_file _ _ _ _ _ _ Hsd Hc) as Hst.
  unfold _read_storefile, bind, test, missing_storepaths. rewrite Hhas. simpl.
  unfold missing_step, os_path_isfile, os_path_join. rewrite Hst. simpl.
  unfold read_file, _storefile, os_path_join. by rewrite Hst.
Qed.

Lemma rstrip_NL s : rstrip (String.append s NL) = rstrip s.
Proof. induction s as [|a s IH]; [done|]. simpl. by rewrite IH. Qed.

Lemma strip_NL s : strip (String.append s NL) = strip s.
Proof. unfold strip. by rewrite rstrip_NL. Qed.

Lemma written_no_fault env data :
  write_fault env = None -> newline_fault env = None ->
  written env data
  = match data with
    | EmptyString => EmptyString
    | String _ _ => String.append data NL
    end
  /\ try_outcome env data = inr tt.
Proof. unfold written, try_outcome. intros -> ->. by destruct data. Qed.

Lemma realpath_storedir_leads fs p sp :
  _has_storedir fs p = true ->
  realpath fs (_storedir p) = inr sp ->
  os_access_w fs (_storedir p) = true ->
  leads_to_dir fs (_storedir p) sp true.
Proof.
  intros [_ Hd]%andb_true_iff Hr Hacc.
  apply isdir_leads in Hd as (q & w & Hd).
  rewrite (leads_realpath _ _ _ _ Hd) in Hr. injection Hr as ->.
  rewrite (leads_access _ _ _ _ Hd) in Hacc. by subst w.
Qed.

(** C3: a write that meets no failure puts the content into the store
    file, followed by a newline unless the content is empty, and the
    read after it returns the content without the white space around
    it: the content itself when it neither starts nor ends with white
    space.  Writing the empty string leaves a store file of zero
    bytes that reads as the empty string. *)
Theorem write_read_round_trip (env : io_env) (fs : fsys) (p : path)
    (filename data : string) :
  _has_storedir fs p = true ->
  os_access_w fs (_storedir p) = true ->
  entry_free_or_file fs p filename = true ->
  tmp_name_free env fs p = true ->
  write_fault env = None -> newline_fault env = None -> close_fault env = None ->
  exists fs' sp,
    _write_storefile env p filename data fs = (fs', inr tt)
    /\ _read_storefile p filename fs' = (fs', inr (strip data))
    /\ (strip data = data -> _read_storefile p filename fs' = (fs', inr data))
    /\ realpath fs' (_storedir p) = inr sp
    /\ fs' !! (sp ++ [filename])
       = Some (File match data with
                    | EmptyString => EmptyString
                    | String _ _ => String.append data NL
                    end).
Proof.
  intros Hhas Hacc Hentry Htmp Hw Hn Hc.
  destruct (write_storefile_effect env fs p filename data Hhas Hacc Hentry Htmp Hc)
    as (fs' & sp & Hrun & Hsd & Hfile & _ & Hk).
  destruct (written_no_fault env data Hw Hn) as [Hwr Hout].
  rewrite Hout in Hrun. rewrite Hwr in Hfile.
  assert (_read_storefile p filename fs' = (fs', inr (strip data))) as Hread.
  { rewrite (read_storefile_file _ _ _ _ _ _
               (keeps_dirs_has_storedir _ _ _ Hk Hhas) Hsd Hfile).
    destruct data; [done|]. by rewrite strip_NL. }
  exists fs', sp. repeat split; try done.
  - intros <-. done.
  - by eapply leads_realpath.
Qed.

(** C1: when the first [write] to the temporary file fails, the
    exception comes out of [_write_storefile], but the [finally] clause
    has renamed the temporary file to the store file before: the store
    file holds the part of the new content that was written, not what
    it held before, and this is what the next read returns.  Nothing
    else in the file system has changed; no temporary file is left. *)
Theorem write_storefile_failed_write (env : io_env) (fs : fsys) (p sp : path)
    (filename data old : string) (k : nat) (e : errno) :
  _has_storedir fs p = true ->
  realpath fs (_storedir p) = inr sp ->
  os_access_w fs (_storedir p) = true ->
  fs !! (sp ++ [filename]) = Some (File old) ->
  tmp_name_free env fs p = true ->
  write_fault env = Some (k, e) ->
  close_fault env = None ->
  exists fs',
    _write_storefile env p filename data fs = (fs', inl (IOError e))
    /\ fs' !! (sp ++ [filename]) = Some (File (String.substring 0 k data))
    /\ _read_storefile p filename fs'
       = (fs', inr (strip (String.substring 0 k data)))
    /\ forall x, x <> sp ++ [filename] -> fs' !! x = fs !! x.
Proof.
  intros Hhas Hr Hacc Hold Htmp Hw Hc.
  pose proof (realpath_storedir_leads _ _ _ Hhas Hr Hacc) as Hsd.
  assert (entry_free_or_file fs p filename = true) as Hentry.
  { unfold entry_free_or_file, _storefile, os_path_join.
    by rewrite (lstat_snoc _ _ _ _ _ Hsd), Hold. }
  destruct (write_storefile_effect env fs p filename data Hhas Hacc Hentry Htmp Hc)
    as (fs' & sp' & Hrun & Hsd' & Hfile & Hrest & Hk).
  pose proof (leads_to_dir_frame _ _ _ _ _ Hk Hsd) as Hsd''.
  assert (sp' = sp) as ->.
  { apply leads_realpath in Hsd', Hsd''. congruence. }
  unfold written in Hfile. unfold try_outcome in Hrun. rewrite Hw in Hfile, Hrun.
  exists fs'. repeat split; try done.
  by rewrite (read_storefile_file _ _ _ _ _ _
                (keeps_dirs_has_storedir _ _ _ Hk Hhas) Hsd' Hfile).
Qed.

Lemma write_storefile_failed_write_witness :
  fs_wc !! (["wc"; ".osc"] ++ ["_project"]) = Some (File "old")
  /\ exists fs',
       _write_storefile env_full ["wc"] "_project" "new" fs_wc
       = (fs', inl (IOError ENOSPC))
       /\ fs' !! (["wc"; ".osc"] ++ ["_project"]) = Some (File "ne")
       /\ _read_storefile ["wc"] "_project" fs' = (fs', inr "ne")
       /\ forall x, x <> ["wc"; ".osc"] ++ ["_project"] -> fs' !! x = fs_wc !! x.
Proof.
  split; [vm_compute; reflexivity|].
  apply (write_storefile_failed_write env_full fs_wc ["wc"] ["wc"; ".osc"]
           "_project" "new" "old" 2 ENOSPC); vm_compute; reflexivity.
Defined.

Lemma write_read_round_trip_witness :
  exists fs' sp,
    _write_storefile env_ok ["wc"] "_project" "home:user" fs_wc = (fs', inr tt)
    /\ _read_storefile ["wc"] "_project" fs' = (fs', inr "home:user")
    /\ (strip "home:user" = "home:user" ->
        _read_storefile ["wc"] "_project" fs' = (fs', inr "home:user"))
    /\ realpath fs' (_storedir ["wc"]) = inr sp
    /\ fs' !! (sp ++ ["_project"]) = Some (File (String.append "home:user" NL)).
Proof.
  apply (write_read_round_trip env_ok fs_wc ["wc"] "_project" "home:user");
    vm_compute; reflexivity.
Defined.

(** The content written does not always come back: white space at its
    ends is lost. *)
Lemma write_read_loses_space :
  ~ (forall env fs p filename data fs',
       _has_storedir fs p = true ->
       _write_storefile env p filename data fs = (fs', inr tt) ->
       snd (_read_storefile p filename fs') = inr data).
Proof.
  intros H.
  assert (_has_storedir fs_wc ["wc"] = true) as Hhas
    by (vm_compute; reflexivity).
  destruct (_write_storefile env_ok ["wc"] "_project" " x" fs_wc)
    as [fs' r] eqn:Hw.
  assert (r = inr tt) as ->.
  { change r with (snd (fs', r)). rewrite <- Hw. vm_compute; reflexivity. }
  assert (snd (_read_storefile ["wc"] "_project" fs') = inr "x") as Hr.
  { change fs' with (fst (fs', @inr exn unit tt)). rewrite <- Hw.
    vm_compute; reflexivity. }
  rewrite (H _ _ _ _ _ _ Hhas Hw) in Hr. discriminate.
Qed.

(** ** The theorems at the example file systems *)

Lemma missing_storepaths_no_store_witness :
  _has_storedir fs_plain ["ext"] = false
  /\ missing_storepaths fs_plain ["ext"] ["_apiurl"; "_files"] true true
     = ["_apiurl"; "_files"].
Proof.
  split; [vm_compute; reflexivity|].
  apply (missing_storepaths_no_store fs_plain ["ext"]). vm_compute; reflexivity.
Defined.

Lemma wc_init_already_working_copy_witness :
  _has_storedir fs_wc ["wc"] = true
  /\ wc_init ["wc"] None fs_wc
     = (fs_wc, inl (ValueError (AlreadyWorkingCopy ["wc"])))
  /\ forall ext, exists why,
       wc_init ["wc"] (Some ext) fs_wc = (fs_wc, inl (ValueError why))
       /\ (why = AlreadyWorkingCopy ["wc"] \/ why = BadExtStoredir ext).
Proof.
  split; [vm_compute; reflexivity|].
  apply (wc_init_already_working_copy fs_wc ["wc"]). vm_compute; reflexivity.
Defined.

Lemma wc_init_fresh_store_witness :
  exists fs',
    wc_init ["new"] (Some ["ext"]) fs_plain = (fs', inr tt)
    /\ _has_storedir fs' ["new"] = true
    /\ os_path_isdir fs' (_storefile ["new"] _PKG_DATA) = true
    /\ wc_is_project fs' ["new"] = false
    /\ wc_is_package fs' ["new"] = false
    /\ forall filename,
         _read_storefile ["new"] filename fs'
         = (fs', inl (ValueError (NoValidStorefile filename))).
Proof.
  destruct (wc_init ["new"] (Some ["ext"]) fs_plain) as [fs' r] eqn:Hrun.
  assert (r = inr tt) as ->.
  { change r with (snd (fs', r)). rewrite <- Hrun. vm_compute; reflexivity. }
  exists fs'. split; [reflexivity|].
  apply (wc_init_fresh_store fs_plain ["new"] (Some ["ext"]) fs');
    [vm_compute; reflexivity | vm_compute; reflexivity | exact Hrun].
Defined.

Lemma lock_unlock_protocol_witness :
  lockable world_wc ["wc"] = true
  /\ exists h1 w1 h2 w2 h3 w3,
       lock (wc_lock ["wc"]) world_wc = (h1, w1, Returned) /\ has_lock h1 = true
       /\ unlock h1 w1 = (h2, w2, Returned) /\ has_lock h2 = false
       /\ lock h2 w2 = (h3, w3, Returned) /\ has_lock h3 = true.
Proof.
  split; [vm_compute; reflexivity|].
  apply (lock_unlock_protocol (wc_lock ["wc"]) world_wc);
    vm_compute; reflexivity.
Defined.

(** * More of the module

    ** [missing_storepaths] as a filter *)

Lemma missing_storepaths_store fs p paths dirs data :
  _has_storedir fs p = true ->
  missing_storepaths fs p paths dirs data
  = List.filter
      (is_missing fs (if data then _storefile p _PKG_DATA else _storedir p) dirs)
      paths.
Proof.
  unfold missing_storepaths. intros ->. simpl. by rewrite missing_loop_filter.
Qed.

Lemma filter_idemp {A} (f : A -> bool) (l : list A) :
  List.filter f (List.filter f l) = List.filter f l.
Proof.
  induction l as [|x l IH]; [done|]. simpl.
  destruct (f x) eqn:E; [|done]. simpl. by rewrite E, IH.
Qed.

(** X1: With a store directory, a name is reported iff it was asked for
    and the test chosen by [dirs] fails on it, in the directory chosen
    by [data]. *)
Theorem missing_storepaths_elem (fs : fsys) (p : path) (paths : list string)
    (dirs data : bool) (x : string) :
  _has_storedir fs p = true ->
  x ∈ missing_storepaths fs p paths dirs data
  <-> x ∈ paths
      /\ (if dirs then os_path_isdir fs else os_path_isfile fs)
           (os_path_join (if data then _storefile p _PKG_DATA else _storedir p) x)
         = false.
Proof.
  intros Hhas. rewrite (missing_storepaths_store _ _ _ _ _ Hhas).
  rewrite !list_elem_of_In, filter_In. unfold is_missing.
  destruct dirs; by rewrite negb_true_iff.
Qed.

Lemma missing_storepaths_elem_witness :
  "_package" ∈ missing_storepaths fs_wc ["wc"] ["_project"; "_package"] false false
  <-> "_package" ∈ ["_project"; "_package"]
      /\ os_path_isfile fs_wc (os_path_join (_storedir ["wc"]) "_package") = false.
Proof.
  apply (missing_storepaths_elem fs_wc ["wc"] ["_project"; "_package"] false false).
  vm_compute; reflexivity.
Defined.

(** X2: Asking again for the names that were reported reports them all. *)
Theorem missing_storepaths_idemp (fs : fsys) (p : path) (paths : list string)
    (dirs data : bool) :
  missing_storepaths fs p (missing_storepaths fs p paths dirs data) dirs data
  = missing_storepaths fs p paths dirs data.
Proof.
  destruct (_has_storedir fs p) eqn:Hhas.
  - rewrite !(missing_storepaths_store _ _ _ _ _ Hhas). apply filter_idemp.
  - unfold missing_storepaths. by rewrite Hhas.
Qed.

(** X3: The names of two lists are tested one by one: the answer for the
    lists put together is the two answers put together. *)
Theorem missing_storepaths_app (fs : fsys) (p : path) (paths1 paths2 : list string)
    (dirs data : bool) :
  missing_storepaths fs p (paths1 ++ paths2) dirs data
  = missing_storepaths fs p paths1 dirs data
    ++ missing_storepaths fs p paths2 dirs data.
Proof.
  destruct (_has_storedir fs p) eqn:Hhas.
  - rewrite !(missing_storepaths_store _ _ _ _ _ Hhas). apply List.filter_app.
  - unfold missing_storepaths. by rewrite Hhas.
Qed.

(** ** Classification by the store files *)

Lemma is_package_files fs p :
  wc_is_package fs p = true
  <-> _has_storedir fs p = true
      /\ os_path_isfile fs (_storefile p "_apiurl") = true
      /\ os_path_isfile fs (_storefile p "_project") = true
      /\ os_path_isfile fs (_storefile p "_package") = true.
Proof.
  unfold wc_is_package, entry_names.
  destruct (_has_storedir fs p) eqn:Hhas.
  - rewrite (missing_storepaths_store _ _ _ _ _ Hhas). simpl.
    unfold is_missing, _storefile.
    destruct (os_path_isfile fs (os_path_join (_storedir p) "_apiurl"));
      destruct (os_path_isfile fs (os_path_join (_storedir p) "_project"));
      destruct (os_path_isfile fs (os_path_join (_storedir p) "_package"));
      simpl; split; try done; intros (_ & ? & ? & ?); done.
  - unfold missing_storepaths. rewrite Hhas. simpl.
    split; [done|]. by intros [? _].
Qed.

(** X4: A package working copy is a path with a store directory in which
    [_apiurl], [_project] and [_package] are regular files. *)
Theorem wc_is_package_iff (fs : fsys) (p : path) :
  wc_is_package fs p = true
  <-> _has_storedir fs p = true
      /\ os_path_isfile fs (_storefile p "_apiurl") = true
      /\ os_path_isfile fs (_storefile p "_project") = true
      /\ os_path_isfile fs (_storefile p "_package") = true.
Proof. apply is_package_files. Qed.

Lemma is_project_files fs p :
  wc_is_project fs p = true
  <-> _has_storedir fs p = true
      /\ os_path_isfile fs (_storefile p "_apiurl") = true
      /\ os_path_isfile fs (_storefile p "_project") = true
      /\ os_path_isfile fs (_storefile p "_package") = false.
Proof.
  unfold wc_is_project, entry_names.
  destruct (_has_storedir fs p) eqn:Hhas.
  - rewrite (missing_storepaths_store _ _ _ _ _ Hhas). simpl.
    unfold is_missing, _storefile.
    destruct (os_path_isfile fs (os_path_join (_storedir p) "_apiurl"));
      destruct (os_path_isfile fs (os_path_join (_storedir p) "_project"));
      destruct (os_path_isfile fs (os_path_join (_storedir p) "_package"));
      vm_compute; split; try done; intros (_ & ? & ? & ?); done.
  - unfold missing_storepaths. rewrite Hhas.
    split; [|by intros [? _]].
    intros H. exfalso. revert H. vm_compute. done.
Qed.

(** X5: A project working copy is a path with a store directory in which
    [_apiurl] and [_project] are regular files and [_package] is not. *)
Theorem wc_is_project_iff (fs : fsys) (p : path) :
  wc_is_project fs p = true
  <-> _has_storedir fs p = true
      /\ os_path_isfile fs (_storefile p "_apiurl") = true
      /\ os_path_isfile fs (_storefile p "_project") = true
      /\ os_path_isfile fs (_storefile p "_package") = false.
Proof. apply is_project_files. Qed.

(** ** Reading *)

Lemma lstrip_idemp s : lstrip (lstrip s) = lstrip s.
Proof.
  induction s as [|ch s IH]; [done|]. simpl.
  destruct (is_space ch) eqn:E; [done|]. simpl. by rewrite E.
Qed.

Lemma rstrip_cons s ch :
  rstrip s <> EmptyString -> rstrip (String ch s) = String ch (rstrip s).
Proof. simpl. by destruct (rstrip s). Qed.

Lemma rstrip_idemp s : rstrip (rstrip s) = rstrip s.
Proof.
  induction s as [|ch s IH]; [done|]. simpl.
  destruct (rstrip s) as [|ch' r] eqn:E.
  - destruct (is_space ch) eqn:Hs; [done|]. simpl. by rewrite Hs.
  - rewrite rstrip_cons; by rewrite IH.
Qed.

Lemma rstrip_lstrip s : rstrip s = s -> rstrip (lstrip s) = lstrip s.
Proof.
  induction s as [|ch s IH]; [done|]. intros H. simpl in *.
  destruct (rstrip s) as [|ch' r] eqn:E.
  - destruct (is_space ch) eqn:Hs; [done|].
    injection H as <-. simpl. by rewrite Hs.
  - injection H as <-.
    destruct (is_space ch); [by apply IH|].
    rewrite rstrip_cons; by rewrite E.
Qed.

(** What [strip] returns has no white space at its ends. *)
Lemma strip_stripped s :
  lstrip (strip s) = strip s /\ rstrip (strip s) = strip s.
Proof.
  unfold strip. split; [apply lstrip_idemp|].
  apply rstrip_lstrip, rstrip_idemp.
Qed.

Lemma read_storefile_inv fs p filename :
  (exists content,
      _has_storedir fs p = true
      /\ stat fs (_storefile p filename) = inr (File content)
      /\ _read_storefile p filename fs = (fs, inr (strip content)))
  \/ ((_has_storedir fs p = false
       \/ os_path_isfile fs (_storefile p filename) = false)
      /\ _read_storefile p filename fs
         = (fs, inl (ValueError (NoValidStorefile filename)))).
Proof.
  unfold _read_storefile, bind, test, missing_storepaths, raise, ret.
  destruct (_has_storedir fs p) eqn:Hhas; simpl; [|right; split; [by left|done]].
  unfold missing_step, os_path_isfile, read_file, _storefile, os_path_join.
  destruct (stat fs (_storedir p ++ [filename])) as [e|[c|w|t]] eqn:Hst; simpl;
    try (right; split; [by right|done]).
  left. exists c. by rewrite Hst.
Qed.


(** X7: What a read returns neither starts nor ends with white space. *)
Theorem read_storefile_stripped (fs : fsys) (p : path) (filename r : string) :
  snd (_read_storefile p filename fs) = inr r ->
  lstrip r = r /\ rstrip r = r.
Proof.
  destruct (read_storefile_inv fs p filename)
    as [(c & _ & _ & ->)|[_ ->]]; [|done].
  intros [= <-]. apply strip_stripped.
Qed.

Lemma read_storefile_stripped_witness :
  snd (_read_storefile ["wc"] "_project" fs_wc) = inr "old"
  /\ lstrip "old" = "old" /\ rstrip "old" = "old".
Proof.
  split; [vm_compute; reflexivity|].
  apply (read_storefile_stripped fs_wc ["wc"] "_project" "old").
  vm_compute; reflexivity.
Defined.

(** ** Writing: the other ways out *)

Lemma NamedTemporaryFile_readonly names fs d q :
  leads_to_dir fs d q false ->
  existsb (fun n => negb (os_path_lexists fs (os_path_join d n))) names = true ->
  NamedTemporaryFile names d fs = (fs, inl (OSError EACCES)).
Proof.
  intros Hd. induction names as [|n names IH]; simpl; [done|].
  unfold create_node, os_path_lexists, os_path_join.
  rewrite (lstat_snoc _ _ _ _ _ Hd), (lookup_slot_snoc _ _ n _ _ Hd). simpl.
  destruct (fs !! (q ++ [n])) as [m|] eqn:Hn; simpl; [apply IH|done].
Qed.

(** X8: Without a store directory nothing is written: each of the write
    functions raises the error of a path without store directory and
    leaves the file system as it is. *)
Theorem wc_write_no_store (env : io_env) (fs : fsys) (p : path)
    (filename data : string) :
  _has_storedir fs p = false ->
  _write_storefile env p filename data fs = (fs, inl (ValueError (NoStoredir p)))
  /\ wc_write_apiurl env p data fs = (fs, inl (ValueError (NoStoredir p)))
  /\ wc_write_project env p data fs = (fs, inl (ValueError (NoStoredir p)))
  /\ wc_write_package env p data fs = (fs, inl (ValueError (NoStoredir p)))
  /\ wc_write_packages env p data fs = (fs, inl (ValueError (NoStoredir p)))
  /\ wc_write_files env p data fs = (fs, inl (ValueError (NoStoredir p))).
Proof.
  intros Hhas.
  assert (forall f, _write_storefile env p f data fs
                    = (fs, inl (ValueError (NoStoredir p)))) as H.
  { intros f. unfold _write_storefile, bind, test. by rewrite Hhas. }
  unfold wc_write_apiurl, wc_write_project, wc_write_package,
    wc_write_packages, wc_write_files.
  repeat split; apply H.
Qed.

Lemma wc_write_no_store_witness :
  _has_storedir fs_plain ["ext"] = false
  /\ wc_write_project env_ok ["ext"] "home:user" fs_plain
     = (fs_plain, inl (ValueError (NoStoredir ["ext"]))).
Proof.
  split; [vm_compute; reflexivity|].
  apply (wc_write_no_store env_ok fs_plain ["ext"] "_project" "home:user").
  vm_compute; reflexivity.
Defined.

(** X9: A store directory that is not writable is not written to: the
    temporary file cannot be created, the error of the operating
    system comes out and the file system is as it was. *)
Theorem write_storefile_readonly (env : io_env) (fs : fsys) (p : path)
    (filename data : string) :
  _has_storedir fs p = true ->
  os_access_w fs (_storedir p) = false ->
  tmp_name_free env fs p = true ->
  _write_storefile env p filename data fs = (fs, inl (OSError EACCES)).
Proof.
  intros Hhas Hacc Htmp.
  pose proof Hhas as [_ Hsd]%andb_true_iff.
  apply isdir_leads in Hsd as (sp & w & Hsd).
  rewrite (leads_access _ _ _ _ Hsd) in Hacc. subst w.
  unfold _write_storefile, bind, test. rewrite Hhas. simpl.
  by rewrite (NamedTemporaryFile_readonly _ _ _ _ Hsd Htmp).
Qed.

(** X10: When closing the temporary file fails, the rename is not reached:
    the error of [close] comes out (also when the [try] block had
    raised one of its own), nothing that was in the file system is
    changed, and the temporary file is left in the store directory.
    It holds the part of what was written that got out of the buffer
    before the failure, which may be nothing. *)
Theorem write_storefile_failed_close (env : io_env) (fs : fsys) (p sp : path)
    (filename data : string) (k : nat) (e : errno) :
  _has_storedir fs p = true ->
  realpath fs (_storedir p) = inr sp ->
  os_access_w fs (_storedir p) = true ->
  tmp_name_free env fs p = true ->
  close_fault env = Some (k, e) ->
  exists n,
    fs !! (sp ++ [n]) = None
    /\ _write_storefile env p filename data fs
       = (<[sp ++ [n] := File (String.substring 0 k (written env data))]> fs,
          inl (IOError e)).
Proof.
  intros Hhas Hr Hacc Htmp Hc.
  pose proof (realpath_storedir_leads _ _ _ Hhas Hr Hacc) as Hsd.
  destruct (NamedTemporaryFile_ok _ _ _ _ Hsd Htmp) as (n & Hfree & Hmk).
  exists n. split; [done|].
  unfold _write_storefile, bind at 1, test. rewrite Hhas. simpl.
  rewrite Hmk. unfold try_finally. simpl.
  rewrite try_block.
  unfold bind, file_close. rewrite Hc, lookup_insert_eq.
  by rewrite insert_insert_eq.
Qed.

Lemma write_storefile_failed_close_witness :
  exists n,
    fs_wc !! (["wc"; ".osc"] ++ [n]) = None
    /\ _write_storefile env_close ["wc"] "_project" "new" fs_wc
       = (<[ ["wc"; ".osc"] ++ [n] := File EmptyString]> fs_wc,
          inl (IOError EIO)).
Proof.
  apply (write_storefile_failed_close env_close fs_wc ["wc"] ["wc"; ".osc"]
           "_project" "new" 0 EIO); vm_compute; reflexivity.
Defined.

Lemma stat_snoc_lookup fs d q w c :
  leads_to_dir fs d q w ->
  passable fs (q ++ [c]) = false ->
  stat fs (d ++ [c])
  = match fs !! (q ++ [c]) with
    | Some n => inr n
    | None => inl ENOENT
    end.
Proof.
  intros (f & Hw & Hq). unfold passable, stat, realpath.
  rewrite walk_snoc, Hw, Hq.
  destruct (fs !! (q ++ [c])) as [[x|w'|t]|] eqn:Hc; try done.
  intros _. by rewrite Hc.
Qed.

(** X11: A write to one store file, however it ends, does not change what
    is read from another store file that is a regular file. *)
Theorem write_storefile_other_entry (env : io_env) (fs : fsys) (p sp : path)
    (filename data other content : string) :
  _has_storedir fs p = true ->
  realpath fs (_storedir p) = inr sp ->
  os_access_w fs (_storedir p) = true ->
  entry_free_or_file fs p filename = true ->
  tmp_name_free env fs p = true ->
  close_fault env = None ->
  other <> filename ->
  fs !! (sp ++ [other]) = Some (File content) ->
  exists fs',
    fst (_write_storefile env p filename data fs) = fs'
    /\ _read_storefile p other fs = (fs, inr (strip content))
    /\ _read_storefile p other fs' = (fs', inr (strip content)).
Proof.
  intros Hhas Hr Hacc Hentry Htmp Hc Hne Hother.
  pose proof (realpath_storedir_leads _ _ _ Hhas Hr Hacc) as Hsd.
  destruct (write_storefile_effect env fs p filename data Hhas Hacc Hentry Htmp Hc)
    as (fs' & sp' & Hrun & Hsd' & Hfile & Hrest & Hk).
  pose proof (leads_to_dir_frame _ _ _ _ _ Hk Hsd) as Hsd''.
  assert (sp' = sp) as ->.
  { apply leads_realpath in Hsd', Hsd''. congruence. }
  exists fs'. rewrite Hrun. split; [done|]. split.
  - exact (read_storefile_file _ _ _ _ _ _ Hhas Hsd Hother).
  - apply (read_storefile_file _ _ _ _ _ _
             (keeps_dirs_has_storedir _ _ _ Hk Hhas) Hsd').
    rewrite Hrest; [done|]. intros [_ ?]%snoc_inj. done.
Qed.

Lemma write_storefile_other_entry_witness :
  exists fs',
    fst (_write_storefile env_full ["wc"] "_apiurl" "https://new" fs_prj) = fs'
    /\ _read_storefile ["wc"] "_project" fs_prj = (fs_prj, inr (strip "old"))
    /\ _read_storefile ["wc"] "_project" fs' = (fs', inr (strip "old")).
Proof.
  apply (write_storefile_other_entry env_full fs_prj ["wc"] ["wc"; ".osc"]
           "_apiurl" "https://new" "_project" "old");
    try (vm_compute; reflexivity).
  discriminate.
Defined.

Lemma write_storefile_readonly_witness :
  _write_storefile env_ok ["wc"] "_project" "home:user" fs_rostore
  = (fs_rostore, inl (OSError EACCES)).
Proof.
  apply (write_storefile_readonly env_ok fs_rostore ["wc"] "_project" "home:user");
    vm_compute; reflexivity.
Defined.

(** ** A sequence of writes *)

Lemma tmp_name_apart_free env fs p avoid :
  tmp_name_apart env fs p avoid = true -> tmp_name_free env fs p = true.
Proof.
  unfold tmp_name_apart, tmp_name_free. rewrite !existsb_exists.
  intros (n & Hn & [H _]%andb_true_iff). eauto.
Qed.

Lemma tmp_name_apart_step env fs fs' p sp w w' avoid filename :
  leads_to_dir fs (_storedir p) sp w ->
  leads_to_dir fs' (_storedir p) sp w' ->
  (forall x, x <> sp ++ [filename] -> fs' !! x = fs !! x) ->
  filename ∈ avoid ->
  tmp_name_apart env fs p avoid = true ->
  tmp_name_apart env fs' p avoid = true.
Proof.
  intros Hsd Hsd' Hrest Hin. unfold tmp_name_apart. rewrite !existsb_exists.
  intros (n & Hn & [H1 H2]%andb_true_iff). exists n. split; [done|].
  apply andb_true_iff. split; [|done].
  apply negb_true_iff in H2. apply bool_decide_eq_false in H2.
  unfold os_path_lexists, os_path_join in *.
  rewrite (lstat_snoc _ _ _ _ _ Hsd) in H1. rewrite (lstat_snoc _ _ _ _ _ Hsd').
  rewrite Hrest; [done|]. intros [_ ->]%snoc_inj. done.
Qed.

Lemma entry_free_or_file_step fs fs' p sp w w' filename other :
  leads_to_dir fs (_storedir p) sp w ->
  leads_to_dir fs' (_storedir p) sp w' ->
  (forall x, x <> sp ++ [filename] -> fs' !! x = fs !! x) ->
  other <> filename ->
  entry_free_or_file fs' p other = entry_free_or_file fs p other.
Proof.
  intros Hsd Hsd' Hrest Hne. unfold entry_free_or_file, _storefile, os_path_join.
  rewrite (lstat_snoc _ _ _ _ _ Hsd), (lstat_snoc _ _ _ _ _ Hsd').
  rewrite Hrest; [done|]. intros [_ ?]%snoc_inj. done.
Qed.

Lemma isfile_snoc fs d q w c :
  leads_to_dir fs d q w ->
  passable fs (q ++ [c]) = false ->
  os_path_isfile fs (d ++ [c])
  = match fs !! (q ++ [c]) with
    | Some (File _) => true
    | _ => false
    end.
Proof.
  intros Hd Hp. unfold os_path_isfile.
  rewrite (stat_snoc_lookup _ _ _ _ _ Hd Hp).
  by destruct (fs !! (q ++ [c])) as [[| |]|].
Qed.

(** A write that meets no failure, as a step from one store to the next. *)
Lemma write_storefile_step env fs p sp filename data :
  _has_storedir fs p = true ->
  leads_to_dir fs (_storedir p) sp true ->
  entry_free_or_file fs p filename = true ->
  tmp_name_free env fs p = true ->
  no_fault env = true ->
  exists fs',
    _write_storefile env p filename data fs = (fs', inr tt)
    /\ _has_storedir fs' p = true
    /\ leads_to_dir fs' (_storedir p) sp true
    /\ (exists content, fs' !! (sp ++ [filename]) = Some (File content)
                        /\ strip content = strip data)
    /\ (forall x, x <> sp ++ [filename] -> fs' !! x = fs !! x).
Proof.
  intros Hhas Hsd Hentry Htmp Hnf. unfold no_fault in Hnf.
  destruct (write_fault env) eqn:Hw; [done|].
  destruct (newline_fault env) eqn:Hn; [done|].
  destruct (close_fault env) eqn:Hc; [done|].
  destruct (write_storefile_effect env fs p filename data Hhas
              (leads_access _ _ _ _ Hsd) Hentry Htmp Hc)
    as (fs' & sp' & Hrun & Hsd' & Hfile & Hrest & Hk).
  pose proof (leads_to_dir_frame _ _ _ _ _ Hk Hsd) as Hsd''.
  assert (sp' = sp) as ->.
  { apply leads_realpath in Hsd', Hsd''. congruence. }
  destruct (written_no_fault env data Hw Hn) as [Hwr Hout].
  rewrite Hout in Hrun. rewrite Hwr in Hfile.
  exists fs'. split; [done|]. split; [by eapply keeps_dirs_has_storedir|].
  split; [done|]. split; [|done].
  eexists. split; [exact Hfile|]. destruct data; [done|]. apply strip_NL.
Qed.

Lemma write_entries_run (env1 env2 env3 : io_env) (fs : fsys) (p : path)
    (apiurl project package : string) :
  _has_storedir fs p = true ->
  os_access_w fs (_storedir p) = true ->
  entry_free_or_file fs p "_apiurl" = true ->
  entry_free_or_file fs p "_project" = true ->
  os_path_lexists fs (_storefile p "_package") = false ->
  no_fault env1 && no_fault env2 && no_fault env3 = true ->
  tmp_name_apart env1 fs p entry_names
  && tmp_name_apart env2 fs p entry_names
  && tmp_name_apart env3 fs p entry_names = true ->
  exists fs1 fs2 fs3,
    wc_write_apiurl env1 p apiurl fs = (fs1, inr tt)
    /\ wc_write_project env2 p project fs1 = (fs2, inr tt)
    /\ wc_is_project fs2 p = true /\ wc_is_package fs2 p = false
    /\ wc_write_package env3 p package fs2 = (fs3, inr tt)
    /\ wc_is_project fs3 p = false /\ wc_is_package fs3 p = true
    /\ wc_read_apiurl p fs3 = (fs3, inr (strip apiurl))
    /\ wc_read_project p fs3 = (fs3, inr (strip project))
    /\ wc_read_package p fs3 = (fs3, inr (strip package)).
Proof.
  intros Hhas Hacc Ha Hp Hk
    [[Hn1 Hn2]%andb_true_iff Hn3]%andb_true_iff
    [[Ht1 Ht2]%andb_true_iff Ht3]%andb_true_iff.
  pose proof Hhas as [_ Hsd]%andb_true_iff.
  apply isdir_leads in Hsd as (sp & w & Hsd).
  rewrite (leads_access _ _ _ _ Hsd) in Hacc. subst w.
  assert (fs !! (sp ++ ["_package"]) = None) as Hk0.
  { unfold os_path_lexists, _storefile, os_path_join in Hk.
    rewrite (lstat_snoc _ _ _ _ _ Hsd) in Hk.
    by destruct (fs !! (sp ++ ["_package"])). }
  unfold wc_write_apiurl, wc_write_project, wc_write_package,
    wc_read_apiurl, wc_read_project, wc_read_package.
  destruct (write_storefile_step env1 fs p sp "_apiurl" apiurl Hhas Hsd Ha
              (tmp_name_apart_free _ _ _ _ Ht1) Hn1)
    as (fs1 & Hrun1 & Hhas1 & Hsd1 & (ca & Hfa1 & Hca) & Hrest1).
  assert (entry_free_or_file fs1 p "_project" = true) as Hp1.
  { by rewrite (entry_free_or_file_step _ _ _ _ _ _ "_apiurl" _ Hsd Hsd1 Hrest1). }
  assert (tmp_name_apart env2 fs1 p entry_names = true) as Ht21.
  { apply (tmp_name_apart_step _ _ _ _ _ _ _ _ "_apiurl" Hsd Hsd1 Hrest1);
      [set_solver|done]. }
  assert (tmp_name_apart env3 fs1 p entry_names = true) as Ht31.
  { apply (tmp_name_apart_step _ _ _ _ _ _ _ _ "_apiurl" Hsd Hsd1 Hrest1);
      [set_solver|done]. }
  destruct (write_storefile_step env2 fs1 p sp "_project" project Hhas1 Hsd1 Hp1
              (tmp_name_apart_free _ _ _ _ Ht21) Hn2)
    as (fs2 & Hrun2 & Hhas2 & Hsd2 & (cp & Hfp2 & Hcp) & Hrest2).
  assert (fs2 !! (sp ++ ["_apiurl"]) = Some (File ca)) as Hfa2.
  { rewrite Hrest2; [done|]. by intros [_ ?]%snoc_inj. }
  assert (fs2 !! (sp ++ ["_package"]) = None) as Hk2.
  { rewrite Hrest2, Hrest1; [done| |]; by intros [_ ?]%snoc_inj. }
  assert (entry_free_or_file fs2 p "_package" = true) as He2.
  { unfold entry_free_or_file, _storefile, os_path_join.
    by rewrite (lstat_snoc _ _ _ _ _ Hsd2), Hk2. }
  assert (tmp_name_apart env3 fs2 p entry_names = true) as Ht32.
  { apply (tmp_name_apart_step _ _ _ _ _ _ _ _ "_project" Hsd1 Hsd2 Hrest2);
      [set_solver|done]. }
  destruct (write_storefile_step env3 fs2 p sp "_package" package Hhas2 Hsd2 He2
              (tmp_name_apart_free _ _ _ _ Ht32) Hn3)
    as (fs3 & Hrun3 & Hhas3 & Hsd3 & (ck & Hfk3 & Hck) & Hrest3).
  assert (fs3 !! (sp ++ ["_apiurl"]) = Some (File ca)) as Hfa3.
  { rewrite Hrest3; [done|]. by intros [_ ?]%snoc_inj. }
  assert (fs3 !! (sp ++ ["_project"]) = Some (File cp)) as Hfp3.
  { rewrite Hrest3; [done|]. by intros [_ ?]%snoc_inj. }
  assert (forall fs' c x, leads_to_dir fs' (_storedir p) sp true ->
            fs' !! (sp ++ [c]) = Some (File x) ->
            os_path_isfile fs' (_storefile p c) = true) as Hyes.
  { intros fs' c x Hd Hc. unfold os_path_isfile, _storefile, os_path_join.
    by rewrite (stat_snoc_file _ _ _ _ _ _ Hd Hc). }
  assert (os_path_isfile fs2 (_storefile p "_package") = false) as Hno.
  { unfold _storefile, os_path_join. rewrite (isfile_snoc _ _ _ _ _ Hsd2).
    - by rewrite Hk2.
    - unfold passable. by rewrite Hk2. }
  exists fs1, fs2, fs3. split; [done|]. split; [done|].
  split. { apply is_project_files. eauto 10. }
  split.
  { destruct (wc_is_package fs2 p) eqn:E; [|done].
    apply is_package_files in E as (_ & _ & _ & E). congruence. }
  split; [done|].
  split.
  { destruct (wc_is_project fs3 p) eqn:E; [|done].
    apply is_project_files in E as (_ & _ & _ & E).
    rewrite (Hyes _ _ _ Hsd3 Hfk3) in E. done. }
  split. { apply is_package_files. eauto 10. }
  rewrite (read_storefile_file _ _ _ _ _ _ Hhas3 Hsd3 Hfa3).
  rewrite (read_storefile_file _ _ _ _ _ _ Hhas3 Hsd3 Hfp3).
  rewrite (read_storefile_file _ _ _ _ _ _ Hhas3 Hsd3 Hfk3).
  by rewrite Hca, Hcp, Hck.
Qed.

(** X12: Starting from a writable store without [_package], writing
    [_apiurl] and [_project] gives a project working copy, and writing
    [_package] after that a package working copy, from which the three
    values are read back stripped. *)
Theorem write_entries_classify (env1 env2 env3 : io_env) (fs : fsys) (p : path)
    (apiurl project package : string) :
  _has_storedir fs p = true ->
  os_access_w fs (_storedir p) = true ->
  entry_free_or_file fs p "_apiurl" = true ->
  entry_free_or_file fs p "_project" = true ->
  os_path_lexists fs (_storefile p "_package") = false ->
  no_fault env1 && no_fault env2 && no_fault env3 = true ->
  tmp_name_apart env1 fs p entry_names
  && tmp_name_apart env2 fs p entry_names
  && tmp_name_apart env3 fs p entry_names = true ->
  exists fs1 fs2 fs3,
    wc_write_apiurl env1 p apiurl fs = (fs1, inr tt)
    /\ wc_write_project env2 p project fs1 = (fs2, inr tt)
    /\ wc_is_project fs2 p = true /\ wc_is_package fs2 p = false
    /\ wc_write_package env3 p package fs2 = (fs3, inr tt)
    /\ wc_is_project fs3 p = false /\ wc_is_package fs3 p = true
    /\ wc_read_apiurl p fs3 = (fs3, inr (strip apiurl))
    /\ wc_read_project p fs3 = (fs3, inr (strip project))
    /\ wc_read_package p fs3 = (fs3, inr (strip package)).
Proof. apply write_entries_run. Qed.

Lemma write_entries_classify_witness :
  exists fs1 fs2 fs3,
    wc_write_apiurl env_ok ["wc"] "https://api.example.org" fs_empty_store
    = (fs1, inr tt)
    /\ wc_write_project env_ok ["wc"] "home:user" fs1 = (fs2, inr tt)
    /\ wc_is_project fs2 ["wc"] = true /\ wc_is_package fs2 ["wc"] = false
    /\ wc_write_package env_ok ["wc"] "hello" fs2 = (fs3, inr tt)
    /\ wc_is_project fs3 ["wc"] = false /\ wc_is_package fs3 ["wc"] = true
    /\ wc_read_apiurl ["wc"] fs3 = (fs3, inr (strip "https://api.example.org"))
    /\ wc_read_project ["wc"] fs3 = (fs3, inr (strip "home:user"))
    /\ wc_read_package ["wc"] fs3 = (fs3, inr (strip "hello")).
Proof.
  apply (write_entries_classify env_ok env_ok env_ok fs_empty_store ["wc"]);
    vm_compute; reflexivity.
Defined.

(** ** [wc_init]: what it leaves alone *)




Lemma grows_bind {A B} (m : io A) (k : A -> io B) :
  grows m -> (forall v, grows (k v)) -> grows (bind m k).
Proof.
  intros Hm Hk fs fs' r. unfold bind.
  destruct (m fs) as [fs1 [e|v]] eqn:E.
  - intros [= <- _]. by eapply Hm.
  - intros H x n Hx. eapply Hk; [done|]. by eapply Hm.
Qed.


Lemma grows_create_node p n fs fs' r x m :
  create_node p n fs = (fs', r) -> fs !! x = Some m -> fs' !! x = Some m.
Proof.
  destruct r as [e|q]; intros H Hx.
  - by apply create_node_err in H as ->.
  - apply create_node_ok in H as (d & c & dq & _ & _ & -> & Hn & ->).
    rewrite lookup_insert_ne; [done|]. intros <-. congruence.
Qed.

Lemma grows_os_mkdir p : grows (os_mkdir p).
Proof.
  intros fs fs' r. unfold os_mkdir.
  destruct (create_node _ _ _) as [fs1 [e|q]] eqn:E; intros [= <- _] x n;
    by eapply grows_create_node.
Qed.

Lemma grows_os_symlink t p : grows (os_symlink t p).
Proof.
  intros fs fs' r. unfold os_symlink.
  destruct (create_node _ _ _) as [fs1 [e|q]] eqn:E; intros [= <- _] x n;
    by eapply grows_create_node.
Qed.




(** ** [wc_init]: the refusals *)

Lemma not_dir_no_storedir fs p :
  os_path_isdir fs p = false -> os_path_exists fs (_storedir p) = false.
Proof.
  unfold os_path_isdir, os_path_exists, stat, realpath, _storedir, os_path_join.
  rewrite walk_snoc.
  destruct (walk MAXSYMLINKS false fs [] p) as [e|[f q]]; [done|].
  by destruct (fs !! q) as [[| |]|].
Qed.

(** X14: A path that exists and is not a directory is refused, and so is a
    directory without store directory that is not writable; nothing is
    changed. *)
Theorem wc_init_refuses (fs : fsys) (p : path) (ext : option path) :
  ext_storedir_ok fs ext = true ->
  os_path_exists fs p = true ->
  (os_path_isdir fs p = false ->
     wc_init p ext fs = (fs, inl (ValueError (ExistsButNoDir p))))
  /\ (os_path_isdir fs p = true ->
      os_path_exists fs (_storedir p) = false ->
      os_access_w fs p = false ->
      wc_init p ext fs = (fs, inl (ValueError (NoPermissionForStoredir p)))).
Proof.
  intros Hext Hex. unfold wc_init, bind, test, raise, ret.
  rewrite bad_ext_iff, Hext. simpl. split.
  - intros Hd. by rewrite (not_dir_no_storedir _ _ Hd), Hex, Hd.
  - intros Hd -> Hacc. rewrite Hex, Hd. simpl. by rewrite Hacc.
Qed.

Lemma wc_init_refuses_witness :
  wc_init ["wc"; "file"] None fs_file
  = (fs_file, inl (ValueError (ExistsButNoDir ["wc"; "file"])))
  /\ wc_init ["ro"] (Some ["ext"]) fs_file
     = (fs_file, inl (ValueError (NoPermissionForStoredir ["ro"]))).
Proof.
  split.
  - apply (wc_init_refuses fs_file ["wc"; "file"] None); vm_compute; reflexivity.
  - apply (wc_init_refuses fs_file ["ro"] (Some ["ext"])); vm_compute; reflexivity.
Defined.

(** ** [wc_init]: errors and what they leave *)

Lemma os_mkdir_ok_fresh p fs fs' :
  wf_fs fs = true -> os_mkdir p fs = (fs', inr tt) ->
  exists q, leads_to_dir fs' p q true /\ forall c, fs' !! (q ++ [c]) = None.
Proof.
  intros Hwf (d & c & dq & -> & Hd & Hn & ->)%os_mkdir_ok.
  exists (dq ++ [c]). split.
  - eapply leads_snoc_dir; [|apply lookup_insert_eq].
    eapply leads_to_dir_frame; [|done].
    apply keeps_dirs_insert. unfold passable. by rewrite Hn.
  - intros c'. rewrite lookup_insert_ne
      by (intros H; symmetry in H; by apply snoc_ne in H).
    by apply wf_fs_no_child.
Qed.

Lemma os_mkdir_in_fresh fs d q c :
  leads_to_dir fs d q true -> fs !! (q ++ [c]) = None ->
  snd (os_mkdir (d ++ [c]) fs) = inr tt.
Proof.
  intros Hd Hn. unfold os_mkdir, create_node.
  rewrite (lookup_slot_snoc _ _ c _ _ Hd). simpl. by rewrite Hn.
Qed.

(** In a well-formed file system [os.makedirs] fails before it has
    made anything. *)
Lemma makedirs_rev_fail rname fs fs' e :
  wf_fs fs = true -> makedirs_rev rname fs = (fs', inl e) -> fs' = fs.
Proof.
  revert fs fs' e. induction rname as [|tail rhead IH]; intros fs fs' e Hwf; simpl.
  { apply os_mkdir_err. }
  unfold bind, test, try_except, ret, raise.
  destruct (negb (os_path_exists fs (reverse rhead))); [|apply os_mkdir_err].
  destruct (makedirs_rev rhead fs) as [fs1 [e1|[]]] eqn:Hrec.
  - apply IH in Hrec as ->; [|done].
    destruct e1 as [| |[]|]; try (by intros [= <- _]); apply os_mkdir_err.
  - pose proof (makedirs_rev_wf _ _ _ _ Hwf Hrec) as Hwf1.
    destruct rhead as [|c rhead'].
    + simpl in Hrec. by apply os_mkdir_ok in Hrec as (d & c & dq & []%app_cons_not_nil & _).
    + simpl in Hrec. unfold bind, test, try_except, ret, raise in Hrec.
      assert (exists fs0, wf_fs fs0 = true
                /\ os_mkdir (reverse rhead' ++ [c]) fs0 = (fs1, inr tt))
        as (fs0 & Hwf0 & Hmk).
      { destruct (negb (os_path_exists fs (reverse rhead')));
          [|exists fs; split; assumption].
        destruct (makedirs_rev rhead' fs) as [fs0 [e0|[]]] eqn:Hrec0.
        - destruct e0 as [| |[]|]; try discriminate Hrec.
          exists fs0. split; [exact (makedirs_rev_wf _ _ _ _ Hwf Hrec0)|exact Hrec].
        - exists fs0. split; [exact (makedirs_rev_wf _ _ _ _ Hwf Hrec0)|exact Hrec]. }
      destruct (os_mkdir_ok_fresh _ _ _ Hwf0 Hmk) as (q & Hq & Hfresh).
      rewrite reverse_cons.
      pose proof (os_mkdir_in_fresh _ _ _ tail Hq (Hfresh tail)) as Hok.
      intros H. rewrite H in Hok. done.
Qed.

Lemma os_mkdir_raises p fs fs' e :
  os_mkdir p fs = (fs', inl e) -> exists n, e = OSError n.
Proof.
  unfold os_mkdir. destruct (create_node _ _ _) as [fs1 [n|q]]; [|done].
  intros [= _ <-]. by exists n.
Qed.

Lemma os_symlink_raises t p fs fs' e :
  os_symlink t p fs = (fs', inl e) -> exists n, e = OSError n.
Proof.
  unfold os_symlink. destruct (create_node _ _ _) as [fs1 [n|q]]; [|done].
  intros [= _ <-]. by exists n.
Qed.

Lemma make_store_raises ext p fs fs' e :
  (match ext with
   | Some x => os_symlink x (_storedir p)
   | None => os_mkdir (_storedir p)
   end ;;; os_mkdir (_storefile p _PKG_DATA))%io fs = (fs', inl e) ->
  exists n, e = OSError n.
Proof.
  unfold bind. destruct ext as [x|].
  - destruct (os_symlink x (_storedir p) fs) as [fs1 [e1|[]]] eqn:E.
    + intros [= _ <-]. by eapply os_symlink_raises.
    + apply os_mkdir_raises.
  - destruct (os_mkdir (_storedir p) fs) as [fs1 [e1|[]]] eqn:E.
    + intros [= _ <-]. by eapply os_mkdir_raises.
    + apply os_mkdir_raises.
Qed.

(** X15: In a well-formed file system every [ValueError] of [wc_init] is
    raised before anything was made: the file system is as it was,
    also when the error is the missing permission to create the path. *)
Theorem wc_init_value_error_untouched (fs : fsys) (p : path) (ext : option path)
    (why : value_error) :
  wf_fs fs = true ->
  snd (wc_init p ext fs) = inl (ValueError why) ->
  fst (wc_init p ext fs) = fs.
Proof.
  intros Hwf. destruct (wc_init p ext fs) as [fs' r] eqn:E. simpl.
  intros ->. revert E.
  unfold wc_init. unfold bind at 1. unfold test at 1.
  rewrite bad_ext_iff.
  destruct (negb (ext_storedir_ok fs ext)); [by intros [= <- _]|].
  unfold bind at 1, raise, ret.
  destruct (os_path_exists fs (_storedir p)); [by intros [= <- _]|].
  destruct (os_path_exists fs p && negb (os_path_isdir fs p));
    [by intros [= <- _]|].
  destruct (negb (os_path_exists fs p)).
  - unfold try_except, os_makedirs.
    destruct (makedirs_rev (reverse p) fs) as [fs1 [e|[]]] eqn:Hmk.
    + apply makedirs_rev_fail in Hmk as ->; [|done].
      by destruct e as [| |[]|]; intros [= <- _].
    + apply makedirs_rev_leads in Hmk as (q & Hq). rewrite reverse_involutive in Hq.
      unfold bind at 1, test. rewrite (leads_access _ _ _ _ Hq). simpl.
      intros [n [=]]%make_store_raises.
  - unfold bind at 1, test.
    destruct (os_access_w fs p); simpl; [|by intros [= <- _]].
    intros [n [=]]%make_store_raises.
Qed.

Lemma wc_init_value_error_untouched_witness :
  snd (wc_init ["ro"; "sub"; "dir"] None fs_plain)
  = inl (ValueError (NoPermissionToCreate ["ro"; "sub"; "dir"]))
  /\ fst (wc_init ["ro"; "sub"; "dir"] None fs_plain) = fs_plain.
Proof.
  split; [vm_compute; reflexivity|].
  apply (wc_init_value_error_untouched fs_plain ["ro"; "sub"; "dir"] None
           (NoPermissionToCreate ["ro"; "sub"; "dir"]));
    vm_compute; reflexivity.
Defined.

Lemma realpath_dir_leads fs d q :
  os_path_isdir fs d = true -> realpath fs d = inr q ->
  os_access_w fs d = true -> leads_to_dir fs d q true.
Proof.
  intros (q' & w & Hd)%isdir_leads Hr Hacc.
  rewrite (leads_realpath _ _ _ _ Hd) in Hr. injection Hr as ->.
  rewrite (leads_access _ _ _ _ Hd) in Hacc. by subst w.
Qed.

(** ** The lock and the file system *)

Lemma lockable_inv w p :
  lockable w p = true ->
  exists sp, leads_to_dir (files w) (_storedir p) sp true
             /\ passable (files w) (sp ++ [_LOCK]) = false
             /\ sp ++ [_LOCK] ∉ foreign w.
Proof.
  unfold lockable.
  destruct (realpath (files w) (_storedir p)) as [e|sp] eqn:Hr; [done|].
  destruct (files w !! sp) as [[|[]|]|] eqn:Hsp; try done.
  intros Hl. exists sp. split; [by eapply realpath_leads|].
  unfold passable.
  destruct (files w !! (sp ++ [_LOCK])) as [[| |]|]; try done;
    by apply bool_decide_eq_true in Hl.
Qed.

Lemma lock_lockable p w sp :
  leads_to_dir (files w) (_storedir p) sp true ->
  passable (files w) (sp ++ [_LOCK]) = false ->
  sp ++ [_LOCK] ∉ foreign w ->
  lock (wc_lock p) w
  = (MkWCLock p (Some (sp ++ [_LOCK])),
     World (<[sp ++ [_LOCK] := File EmptyString]> (files w)) (foreign w),
     Returned).
Proof.
  intros Hsd Hpass Hnot. unfold lock, wc_lock, has_lock, _storefile, os_path_join.
  simpl. rewrite (open_w_snoc _ _ _ _ Hsd Hpass).
  by rewrite bool_decide_false.
Qed.

(** X17: Taking the lock makes the lock file an empty regular file and
    changes nothing else; releasing it removes the lock file, also one
    that was there before the lock was taken.  When there was none,
    locking and unlocking give back the world as it was. *)
Theorem lock_unlock_restores (p sp : path) (w : world) :
  lockable w p = true ->
  realpath (files w) (_storedir p) = inr sp ->
  exists h1 w1,
    lock (wc_lock p) w = (h1, w1, Returned)
    /\ files w1 !! (sp ++ [_LOCK]) = Some (File EmptyString)
    /\ (forall x, x <> sp ++ [_LOCK] -> files w1 !! x = files w !! x)
    /\ unlock h1 w1
       = (wc_lock p, World (delete (sp ++ [_LOCK]) (files w)) (foreign w), Returned)
    /\ (files w !! (sp ++ [_LOCK]) = None -> unlock h1 w1 = (wc_lock p, w, Returned)).
Proof.
  intros (sp' & Hsd & Hpass & Hnot)%lockable_inv Hr.
  rewrite (leads_realpath _ _ _ _ Hsd) in Hr. injection Hr as ->.
  set (lp := sp ++ [_LOCK]) in *.
  set (fs1 := <[lp := File EmptyString]> (files w)).
  assert (leads_to_dir fs1 (_storedir p) sp true) as Hsd1.
  { eapply leads_to_dir_frame; [|exact Hsd]. by apply keeps_dirs_insert. }
  assert (fs1 !! lp = Some (File EmptyString)) as Hlp1 by apply lookup_insert_eq.
  assert (unlock (MkWCLock p (Some lp)) (World fs1 (foreign w))
          = (wc_lock p, World (delete lp (files w)) (foreign w), Returned)) as Hun.
  { unfold unlock, has_lock, _storefile, os_path_join. simpl.
    rewrite (os_unlink_file _ _ _ _ _ Hsd1 Hlp1). unfold fs1.
    by rewrite delete_insert_eq. }
  exists (MkWCLock p (Some lp)), (World fs1 (foreign w)).
  split; [by apply lock_lockable|]. split; [done|].
  split. { intros x Hx. simpl. unfold fs1. by rewrite lookup_insert_ne. }
  split; [done|].
  intros Hnone. rewrite Hun, delete_id by done. by destruct w.
Qed.

Lemma lock_unlock_restores_witness :
  exists h1 w1,
    lock (wc_lock ["wc"]) world_wc = (h1, w1, Returned)
    /\ files w1 !! (["wc"; ".osc"] ++ [_LOCK]) = Some (File EmptyString)
    /\ (forall x, x <> ["wc"; ".osc"] ++ [_LOCK] ->
        files w1 !! x = files world_wc !! x)
    /\ unlock h1 w1
       = (wc_lock ["wc"],
          World (delete (["wc"; ".osc"] ++ [_LOCK]) (files world_wc))
            (foreign world_wc),
          Returned)
    /\ (files world_wc !! (["wc"; ".osc"] ++ [_LOCK]) = None ->
        unlock h1 w1 = (wc_lock ["wc"], world_wc, Returned)).
Proof.
  apply (lock_unlock_restores ["wc"] ["wc"; ".osc"] world_wc);
    vm_compute; reflexivity.
Defined.

(** X18: [unlock] gives the lock up before it removes the lock file: when
    the lock was held, the object holds no lock afterwards whether
    [os.unlink] worked or not, and a failed [os.unlink] leaves the file
    system as it was.  [unlock] never waits. *)
Theorem unlock_releases (self : WCLock) (w : world) :
  has_lock self = true ->
  exists w' r,
    unlock self w = (MkWCLock (_path self) None, w', r)
    /\ foreign w' = foreign w
    /\ (r = Returned
        \/ exists e, r = Raised (OSError e) /\ files w' = files w).
Proof.
  intros H. unfold unlock. rewrite H. simpl. unfold os_unlink.
  destruct (lookup_slot _ _) as [e|[s|]].
  - eexists _, _. split; [done|]. split; [done|]. right. by exists e.
  - destruct (slot_node s) as [[| |]|]; try destruct (slot_writable s);
      eexists _, _; (split; [done|]); (split; [done|]);
      first [by left | right; by eexists].
  - eexists _, _. split; [done|]. split; [done|]. right. by eexists.
Qed.

Lemma unlock_releases_witness :
  exists w' r,
    unlock (MkWCLock ["ext"] (Some ["ext"; ".osc"; "wc.lock"])) world_wc
    = (MkWCLock ["ext"] None, w', r)
    /\ foreign w' = foreign world_wc
    /\ (r = Returned
        \/ exists e, r = Raised (OSError e) /\ files w' = files world_wc).
Proof.
  apply (unlock_releases (MkWCLock ["ext"] (Some ["ext"; ".osc"; "wc.lock"]))
           world_wc).
  reflexivity.
Defined.

(** X19: Where the path has no store directory the lock cannot be taken:
    opening the lock file raises an [IOError], the object holds no
    lock and nothing is changed. *)
Theorem lock_without_store (self : WCLock) (w : world) :
  has_lock self = false ->
  os_path_isdir (files w) (_storedir (_path self)) = false ->
  exists e, lock self w = (self, w, Raised (IOError e)).
Proof.
  intros H Hd. unfold lock. rewrite H.
  unfold open_w, _storefile, os_path_join. rewrite walk_snoc.
  unfold os_path_isdir, stat, realpath in Hd.
  destruct w as [fs fr]. simpl in *.
  destruct (walk MAXSYMLINKS false fs [] (_storedir (_path self)))
    as [e|[f q]]; [by exists e|].
  destruct (fs !! q) as [[| |]|]; try done; by eexists.
Qed.

Lemma lock_without_store_witness :
  exists e,
    lock (wc_lock ["ext"]) world_wc = (wc_lock ["ext"], world_wc, Raised (IOError e)).
Proof.
  apply (lock_without_store (wc_lock ["ext"]) world_wc); vm_compute; reflexivity.
Defined.

Lemma lock_returned p w h1 w1 :
  lock (wc_lock p) w = (h1, w1, Returned) -> exists f, h1 = MkWCLock p (Some f).
Proof.
  unfold lock, wc_lock, has_lock. simpl.
  destruct (open_w _ _) as [fs' [e|f]]; [done|].
  case_bool_decide; [done|]. intros [= <- _]. by exists f.
Qed.

Lemma unlock_unlockable p f w :
  unlockable w p = true ->
  exists sp x,
    leads_to_dir (files w) (_storedir p) sp true
    /\ files w !! (sp ++ [_LOCK]) = Some (File x)
    /\ unlock (MkWCLock p (Some f)) w
       = (wc_lock p, World (delete (sp ++ [_LOCK]) (files w)) (foreign w), Returned).
Proof.
  unfold unlockable, lstat, lookup_slot, _storefile, os_path_join.
  rewrite split_last_snoc.
  destruct (walk MAXSYMLINKS false (files w) [] (_storedir p)) as [e|[f' q]] eqn:Hw;
    [done|].
  destruct (files w !! q) as [[|wr|]|] eqn:Hq; try done. simpl.
  destruct (files w !! (q ++ [_LOCK])) as [[x| |]|] eqn:Hl; try done.
  assert (leads_to_dir (files w) (_storedir p) q wr) as Hsd by by exists f'.
  rewrite (leads_access _ _ _ _ Hsd). intros ->.
  exists q, x. split; [done|]. split; [done|].
  unfold unlock, has_lock, _storefile, os_path_join. simpl.
  by rewrite (os_unlink_file _ _ _ _ _ Hsd Hl).
Qed.

Lemma unlock_no_lock_file p f w :
  os_path_lexists (files w) (_storefile p _LOCK) = false ->
  exists e, unlock (MkWCLock p (Some f)) w = (wc_lock p, w, Raised (OSError e)).
Proof.
  unfold os_path_lexists, lstat, unlock, has_lock, os_unlink. simpl.
  destruct w as [fs fr]. simpl.
  destruct (lookup_slot fs (_storefile p _LOCK)) as [e|[s|]].
  - intros _. by exists e.
  - destruct (slot_node s); [done|]. intros _. by eexists.
  - intros _. by eexists.
Qed.

(** X20: The [with] statement on the lock: when the body has left the lock
    file in place, the lock is released and the lock file removed on
    the way out, and what the body did comes out as it was: its
    exception is not suppressed.  When the body has removed the lock
    file, the way out raises the error of [os.unlink], which replaces
    what the body did; the object holds no lock all the same. *)
Theorem with_wc_lock_releases (p : path) (body : world -> world * outcome)
    (w w1 w2 : world) (h1 : WCLock) (r : outcome) :
  lock (wc_lock p) w = (h1, w1, Returned) ->
  body w1 = (w2, r) ->
  r <> Blocked ->
  (unlockable w2 p = true ->
     exists w3,
       with_wc_lock p body w = (wc_lock p, w3, r)
       /\ os_path_lexists (files w3) (_storefile p _LOCK) = false
       /\ foreign w3 = foreign w2
       /\ forall x n, files w3 !! x = Some n -> files w2 !! x = Some n)
  /\ (os_path_lexists (files w2) (_storefile p _LOCK) = false ->
      exists e, with_wc_lock p body w = (wc_lock p, w2, Raised (OSError e))).
Proof.
  intros Hlock Hbody Hr.
  destruct (lock_returned _ _ _ _ Hlock) as [f ->].
  unfold with_wc_lock, __enter__, __exit__. rewrite Hlock, Hbody. split.
  - intros (sp & x & Hsd & Hl & ->)%(unlock_unlockable p f).
    eexists. split; [by destruct r|]. simpl. split; [|split; [done|]].
    + unfold os_path_lexists, _storefile, os_path_join.
      assert (leads_to_dir (delete (sp ++ [_LOCK]) (files w2)) (_storedir p) sp true)
        as Hsd'.
      { eapply leads_to_dir_frame; [|exact Hsd].
        apply keeps_dirs_delete. unfold passable. by rewrite Hl. }
      by rewrite (lstat_snoc _ _ _ _ _ Hsd'), lookup_delete_eq.
    + intros y n. rewrite lookup_delete_Some. by intros [_ ?].
  - intros [e ->]%(unlock_no_lock_file p f). exists e. by destruct r.
Qed.

Lemma with_wc_lock_releases_witness :
  exists w3,
    with_wc_lock ["wc"] body_raises world_wc
    = (wc_lock ["wc"], w3, Raised (ValueError (NoValidStorefile "_files")))
    /\ os_path_lexists (files w3) (_storefile ["wc"] _LOCK) = false.
Proof.
  destruct (lock (wc_lock ["wc"]) world_wc) as [[h1 w1] r1] eqn:E.
  assert (r1 = Returned) as ->.
  { change r1 with (snd (h1, w1, r1)). rewrite <- E. vm_compute; reflexivity. }
  destruct (proj1 (with_wc_lock_releases ["wc"] body_raises world_wc w1 w1 h1
                     (Raised (ValueError (NoValidStorefile "_files")))
                     E eq_refl ltac:(discriminate)))
    as (w3 & H1 & H2 & _).
  - change w1 with (snd (fst (h1, w1, Returned))). rewrite <- E.
    vm_compute; reflexivity.
  - exists w3. split; [exact H1|exact H2].
Defined.

(** ** From [wc_init] to a working copy *)

(** The store directory [wc_init] makes itself holds the data
    directory and nothing else. *)
Lemma wc_init_own_store fs p fs' :
  wf_fs fs = true ->
  wc_init p None fs = (fs', inr tt) ->
  exists sp,
    _has_storedir fs' p = true
    /\ leads_to_dir fs' (_storedir p) sp true
    /\ fs' !! (sp ++ [_PKG_DATA]) = Some (Dir true)
    /\ forall c, c <> _PKG_DATA -> fs' !! (sp ++ [c]) = None.
Proof.
  intros Hwf Hrun.
  destruct (wc_init_layout _ _ _ _ Hrun) as (_ & rp & _ & _ & _ & Hp & _).
  destruct (wc_init_inv _ _ _ _ Hrun)
    as (_ & _ & fs1 & fs2 & Hfs1 & _ & Hmk2 & Hmk3).
  assert (wf_fs fs1 = true) as Hwf1.
  { destruct Hfs1 as [[_ ->]|[_ Hmk]]; [done|].
    unfold os_makedirs in Hmk. by eapply makedirs_rev_wf. }
  destruct (os_mkdir_ok_fresh _ _ _ Hwf1 Hmk2) as (q & Hq & Hfresh).
  apply os_mkdir_ok in Hmk3 as (d & c & dq & Heq & Hd & Hn & ->).
  unfold _storefile, os_path_join in Heq. apply snoc_inj in Heq as [<- <-].
  destruct (leads_to_dir_fun _ _ _ _ _ _ Hq Hd) as [<- _].
  assert (leads_to_dir (<[q ++ [_PKG_DATA] := Dir true]> fs2) (_storedir p) q true)
    as Hq'.
  { eapply leads_to_dir_frame; [|exact Hq].
    apply keeps_dirs_insert. unfold passable. by rewrite Hn. }
  exists q. split; [|split; [done|split]].
  - apply andb_true_iff. split; by eapply leads_isdir.
  - apply lookup_insert_eq.
  - intros c Hc. rewrite lookup_insert_ne; [apply Hfresh|].
    by intros [_ ?]%snoc_inj.
Qed.

(** X21: A path that [wc_init] has made a working copy of is neither a
    project nor a package working copy; [wc_write_apiurl] and
    [wc_write_project] make it a project working copy, and
    [wc_write_package] after them a package working copy: at no point
    is it both. *)
Theorem init_write_classify (env1 env2 env3 : io_env) (fs : fsys) (p : path)
    (apiurl project package : string) :
  wf_fs fs = true ->
  snd (wc_init p None fs) = inr tt ->
  no_fault env1 && no_fault env2 && no_fault env3 = true ->
  has_tmp_name env1 && has_tmp_name env2 && has_tmp_name env3 = true ->
  exists fs0 fs1 fs2 fs3,
    wc_init p None fs = (fs0, inr tt)
    /\ wc_is_project fs0 p = false /\ wc_is_package fs0 p = false
    /\ wc_write_apiurl env1 p apiurl fs0 = (fs1, inr tt)
    /\ wc_write_project env2 p project fs1 = (fs2, inr tt)
    /\ wc_is_project fs2 p = true /\ wc_is_package fs2 p = false
    /\ wc_write_package env3 p package fs2 = (fs3, inr tt)
    /\ wc_is_project fs3 p = false /\ wc_is_package fs3 p = true
    /\ wc_read_apiurl p fs3 = (fs3, inr (strip apiurl))
    /\ wc_read_project p fs3 = (fs3, inr (strip project))
    /\ wc_read_package p fs3 = (fs3, inr (strip package)).
Proof.
  intros Hwf Hinit Hnf [[Ht1 Ht2]%andb_true_iff Ht3]%andb_true_iff.
  destruct (wc_init p None fs) as [fs0 r] eqn:Hrun. simpl in Hinit. subst r.
  destruct (wc_init_own_store _ _ _ Hwf Hrun) as (sp & Hhas & Hsd & Hdata & Hfree).
  assert (forall c, c <> _PKG_DATA ->
            lstat fs0 (_storefile p c) = inl ENOENT) as Hl.
  { intros c Hc. unfold _storefile, os_path_join.
    by rewrite (lstat_snoc _ _ _ _ _ Hsd), (Hfree c Hc). }
  assert (forall env, has_tmp_name env = true ->
            tmp_name_apart env fs0 p entry_names = true) as Htmp.
  { intros env. unfold has_tmp_name, tmp_name_apart. rewrite !existsb_exists.
    intros (n & Hn & Hnot). exists n. split; [done|].
    apply negb_true_iff, bool_decide_eq_false in Hnot.
    apply andb_true_iff. split.
    - unfold os_path_lexists. fold (_storefile p n). rewrite Hl; [done|].
      intros ->. apply Hnot. left.
    - apply negb_true_iff, bool_decide_eq_false. intros Hin. apply Hnot. by right. }
  assert (forall c, c <> _PKG_DATA ->
            os_path_isfile fs0 (_storefile p c) = false) as Hnofile.
  { intros c Hc. unfold _storefile, os_path_join.
    rewrite (isfile_snoc _ _ _ _ _ Hsd); unfold passable; by rewrite (Hfree c Hc). }
  destruct (write_entries_run env1 env2 env3 fs0 p apiurl project package)
    as (fs1 & fs2 & fs3 & H); try done.
  - apply (leads_access _ _ _ _ Hsd).
  - unfold entry_free_or_file. by rewrite Hl.
  - unfold entry_free_or_file. by rewrite Hl.
  - unfold os_path_lexists. by rewrite Hl.
  - by rewrite !Htmp.
  - exists fs0, fs1, fs2, fs3. split; [done|]. split; [|split; [|exact H]].
    + destruct (wc_is_project fs0 p) eqn:E; [|done].
      apply is_project_files in E as (_ & E & _). by rewrite Hnofile in E.
    + destruct (wc_is_package fs0 p) eqn:E; [|done].
      apply is_package_files in E as (_ & E & _). by rewrite Hnofile in E.
Qed.

Lemma init_write_classify_witness :
  exists fs0 fs1 fs2 fs3,
    wc_init ["new"] None fs_plain = (fs0, inr tt)
    /\ wc_is_project fs0 ["new"] = false /\ wc_is_package fs0 ["new"] = false
    /\ wc_write_apiurl env_ok ["new"] "https://api.example.org" fs0 = (fs1, inr tt)
    /\ wc_write_project env_ok ["new"] "home:user" fs1 = (fs2, inr tt)
    /\ wc_is_project fs2 ["new"] = true /\ wc_is_package fs2 ["new"] = false
    /\ wc_write_package env_ok ["new"] "hello" fs2 = (fs3, inr tt)
    /\ wc_is_project fs3 ["new"] = false /\ wc_is_package fs3 ["new"] = true
    /\ wc_read_apiurl ["new"] fs3 = (fs3, inr (strip "https://api.example.org"))
    /\ wc_read_project ["new"] fs3 = (fs3, inr (strip "home:user"))
    /\ wc_read_package ["new"] fs3 = (fs3, inr (strip "hello")).
Proof.
  apply (init_write_classify env_ok env_ok env_ok fs_plain ["new"]);
    vm_compute; reflexivity.
Defined.

(** X22: On a directory that exists, [wc_init] without external store
    directory makes exactly two directories: the store directory in
    the directory the path leads to, and the data directory in it.
    Both names were free, and the directory is writable. *)
Theorem wc_init_existing_dir (fs : fsys) (p rp : path) :
  os_path_isdir fs p = true ->
  realpath fs p = inr rp ->
  snd (wc_init p None fs) = inr tt ->
  fst (wc_init p None fs)
  = <[(rp ++ [_STORE]) ++ [_PKG_DATA] := Dir true]>
      (<[rp ++ [_STORE] := Dir true]> fs)
  /\ fs !! (rp ++ [_STORE]) = None
  /\ fs !! ((rp ++ [_STORE]) ++ [_PKG_DATA]) = None
  /\ os_access_w fs p = true.
Proof.
  intros Hd Hrp. destruct (wc_init p None fs) as [fs' r] eqn:Hrun. simpl.
  intros ->.
  destruct (wc_init_inv _ _ _ _ Hrun)
    as (_ & _ & fs1 & fs2 & Hfs1 & Hacc & Hmk2 & Hmk3).
  destruct Hfs1 as [[_ ->]|[Hex _]];
    [|by rewrite (isdir_exists _ _ Hd) in Hex].
  apply os_mkdir_ok in Hmk2 as (d & c & dq & Heq & Hdq & Hn & ->).
  unfold _storedir, os_path_join in Heq. apply snoc_inj in Heq as [<- <-].
  rewrite (leads_realpath _ _ _ _ Hdq) in Hrp. injection Hrp as ->.
  set (fs2 := <[rp ++ [_STORE] := Dir true]> fs) in *.
  assert (leads_to_dir fs2 (_storedir p) (rp ++ [_STORE]) true) as Hsd.
  { eapply leads_snoc_dir; [|apply lookup_insert_eq].
    eapply leads_to_dir_frame; [|exact Hdq].
    apply keeps_dirs_insert. unfold passable. by rewrite Hn. }
  apply os_mkdir_ok in Hmk3 as (d & c & dq & Heq & Hdq' & Hn' & ->).
  unfold _storefile, os_path_join in Heq. apply snoc_inj in Heq as [<- <-].
  destruct (leads_to_dir_fun _ _ _ _ _ _ Hsd Hdq') as [<- _].
  split; [done|]. split; [done|]. split; [|done].
  unfold fs2 in Hn'. rewrite lookup_insert_ne in Hn'; [done|].
  intros H. symmetry in H. by apply snoc_ne in H.
Qed.

Lemma wc_init_existing_dir_witness :
  fst (wc_init ["ext"] None fs_plain)
  = <[(["ext"] ++ [_STORE]) ++ [_PKG_DATA] := Dir true]>
      (<[ ["ext"] ++ [_STORE] := Dir true]> fs_plain)
  /\ fs_plain !! (["ext"] ++ [_STORE]) = None
  /\ fs_plain !! ((["ext"] ++ [_STORE]) ++ [_PKG_DATA]) = None
  /\ os_access_w fs_plain ["ext"] = true.
Proof.
  apply (wc_init_existing_dir fs_plain ["ext"] ["ext"]); vm_compute; reflexivity.
Defined.

(** X23: Two lock objects of one process on the same working copy do not
    exclude each other: the operating system's lock belongs to the
    process, so the second [lock] returns as well.  The first [unlock]
    removes the lock file, and the second one raises the error of
    [os.unlink] on a file that is gone. *)
Theorem two_handles_one_process (p : path) (w : world) :
  lockable w p = true ->
  exists h w1 w2 w3,
    lock (wc_lock p) w = (h, w1, Returned)
    /\ lock (wc_lock p) w1 = (h, w2, Returned)
    /\ has_lock h = true
    /\ unlock h w2 = (wc_lock p, w3, Returned)
    /\ unlock h w3 = (wc_lock p, w3, Raised (OSError ENOENT)).
Proof.
  intros (sp & Hsd & Hpass & Hnot)%lockable_inv.
  set (lp := sp ++ [_LOCK]) in *.
  set (fs1 := <[lp := File EmptyString]> (files w)).
  assert (leads_to_dir fs1 (_storedir p) sp true) as Hsd1.
  { eapply leads_to_dir_frame; [|exact Hsd]. by apply keeps_dirs_insert. }
  assert (fs1 !! lp = Some (File EmptyString)) as Hlp1 by apply lookup_insert_eq.
  assert (leads_to_dir (delete lp fs1) (_storedir p) sp true) as Hsd3.
  { eapply leads_to_dir_frame; [|exact Hsd1].
    apply keeps_dirs_delete. unfold passable. by rewrite Hlp1. }
  exists (MkWCLock p (Some lp)), (World fs1 (foreign w)), (World fs1 (foreign w)),
    (World (delete lp fs1) (foreign w)).
  split; [by apply lock_lockable|]. split.
  { rewrite (lock_lockable p (World fs1 (foreign w)) sp); try done.
    - simpl. unfold fs1. by rewrite insert_insert_eq.
    - simpl. unfold passable. fold lp. by rewrite Hlp1. }
  split; [done|].
  unfold unlock, has_lock, _storefile, os_path_join. simpl.
  rewrite (os_unlink_file _ _ _ _ _ Hsd1 Hlp1). split; [done|].
  unfold os_unlink. rewrite (lookup_slot_snoc _ _ _LOCK _ _ Hsd3). simpl.
  fold lp. by rewrite lookup_delete_eq.
Qed.

Lemma two_handles_one_process_witness :
  exists h w1 w2 w3,
    lock (wc_lock ["wc"]) world_wc = (h, w1, Returned)
    /\ lock (wc_lock ["wc"]) w1 = (h, w2, Returned)
    /\ has_lock h = true
    /\ unlock h w2 = (wc_lock ["wc"], w3, Returned)
    /\ unlock h w3 = (wc_lock ["wc"], w3, Raised (OSError ENOENT)).
Proof.
  apply (two_handles_one_process ["wc"] world_wc). vm_compute; reflexivity.
Defined.

(** X24: A store file name that is taken by a directory cannot be written:
    the rename in the [finally] clause raises [EISDIR], whatever the
    [try] block did, and the temporary file is left in the store
    directory; nothing else is changed. *)
Theorem write_storefile_onto_dir (env : io_env) (fs : fsys) (p sp : path)
    (filename data : string) (wd : bool) :
  _has_storedir fs p = true ->
  realpath fs (_storedir p) = inr sp ->
  os_access_w fs (_storedir p) = true ->
  fs !! (sp ++ [filename]) = Some (Dir wd) ->
  tmp_name_free env fs p = true ->
  close_fault env = None ->
  exists n,
    fs !! (sp ++ [n]) = None
    /\ _write_storefile env p filename data fs
       = (<[sp ++ [n] := File (written env data)]> fs, inl (OSError EISDIR)).
Proof.
  intros Hhas Hr Hacc Hdir Htmp Hc.
  pose proof (realpath_storedir_leads _ _ _ Hhas Hr Hacc) as Hsd.
  destruct (NamedTemporaryFile_ok _ _ _ _ Hsd Htmp) as (n & Hfree & Hmk).
  exists n. split; [done|].
  set (fsb := <[sp ++ [n] := File (written env data)]> fs).
  assert (leads_to_dir fsb (_storedir p) sp true) as Hsdb.
  { eapply leads_to_dir_frame; [|exact Hsd].
    apply keeps_dirs_insert. unfold passable. by rewrite Hfree. }
  unfold _write_storefile, bind at 1, test. rewrite Hhas. simpl.
  rewrite Hmk. unfold try_finally. simpl.
  rewrite try_block. fold fsb.
  unfold bind, file_close. rewrite Hc. unfold ret.
  unfold os_rename, _storefile, os_path_join.
  rewrite (lookup_slot_snoc _ _ n _ _ Hsdb),
    (lookup_slot_snoc _ _ filename _ _ Hsdb). simpl.
  unfold fsb at 1. rewrite lookup_insert_eq.
  unfold fsb at 1. rewrite lookup_insert_ne, Hdir; [done|].
  intros [_ ->]%snoc_inj. congruence.
Qed.

Lemma write_storefile_onto_dir_witness :
  exists n,
    fs_dir_entry !! (["wc"; ".osc"] ++ [n]) = None
    /\ _write_storefile env_ok ["wc"] "_files" "<directory/>" fs_dir_entry
       = (<[ ["wc"; ".osc"] ++ [n] := File (written env_ok "<directory/>")]>
            fs_dir_entry,
          inl (OSError EISDIR)).
Proof.
  apply (write_storefile_onto_dir env_ok fs_dir_entry ["wc"] ["wc"; ".osc"]
           "_files" "<directory/>" true); vm_compute; reflexivity.
Defined.

(** X25: A write whose [finally] clause gets through changes the store file
    and nothing else, whether the [try] block returned or raised: no
    temporary file is left, and the store file holds what went into
    the temporary file. *)
Theorem write_storefile_frame (env : io_env) (fs : fsys) (p sp : path)
    (filename data : string) :
  _has_storedir fs p = true ->
  realpath fs (_storedir p) = inr sp ->
  os_access_w fs (_storedir p) = true ->
  entry_free_or_file fs p filename = true ->
  tmp_name_free env fs p = true ->
  close_fault env = None ->
  exists fs',
    _write_storefile env p filename data fs = (fs', try_outcome env data)
    /\ fs' !! (sp ++ [filename]) = Some (File (written env data))
    /\ forall x, x <> sp ++ [filename] -> fs' !! x = fs !! x.
Proof.
  intros Hhas Hr Hacc Hentry Htmp Hc.
  pose proof (realpath_storedir_leads _ _ _ Hhas Hr Hacc) as Hsd.
  destruct (write_storefile_effect env fs p filename data Hhas Hacc Hentry Htmp Hc)
    as (fs' & sp' & Hrun & Hsd' & Hfile & Hrest & Hk).
  pose proof (leads_to_dir_frame _ _ _ _ _ Hk Hsd) as Hsd''.
  assert (sp' = sp) as ->.
  { apply leads_realpath in Hsd', Hsd''. congruence. }
  by exists fs'.
Qed.

Lemma write_storefile_frame_witness :
  exists fs',
    _write_storefile env_ok ["wc"] "_package" "hello" fs_wc
    = (fs', try_outcome env_ok "hello")
    /\ fs' !! (["wc"; ".osc"] ++ ["_package"])
       = Some (File (written env_ok "hello"))
    /\ forall x, x <> ["wc"; ".osc"] ++ ["_package"] -> fs' !! x = fs_wc !! x.
Proof.
  apply (write_storefile_frame env_ok fs_wc ["wc"] ["wc"; ".osc"]
           "_package" "hello"); vm_compute; reflexivity.
Defined.

(** ** [wc_init] with the external store directory as it is given *)

Lemma os_symlink_text_abs t l fs : os_symlink_text (Abs t) l fs = os_symlink t l fs.
Proof.
  unfold os_symlink_text, os_symlink, create_node.
  by destruct (lookup_slot fs l) as [e|[s|]].
Qed.

Lemma os_symlink_text_ok text l fs fs' :
  os_symlink_text text l fs = (fs', inr tt) ->
  exists d c dq,
    l = d ++ [c] /\ leads_to_dir fs d dq true
    /\ fs !! (dq ++ [c]) = None
    /\ fs' = <[dq ++ [c] := Symlink (link_target dq text)]> fs.
Proof.
  unfold os_symlink_text.
  destruct (lookup_slot fs l) as [e|[s|]] eqn:Hl; try done.
  intros (d & c & dq & -> & Hd & Hn & ->)%os_symlink_ok.
  apply lookup_slot_inv in Hl as (d' & [<- _]%snoc_inj & Hd' & _).
  destruct (leads_to_dir_fun _ _ _ _ _ _ Hd Hd') as [<- _].
  by exists d, c, dq.
Qed.

Lemma bind_ext {A B} (m m' : io A) (k k' : A -> io B) fs :
  m fs = m' fs -> (forall v fs1, k v fs1 = k' v fs1) ->
  bind m k fs = bind m' k' fs.
Proof.
  intros Hm Hk. unfold bind. rewrite Hm.
  by destruct (m' fs) as [fs1 [e|v]].
Qed.

(** With an absolute external store directory the working directory
    plays no role. *)
Lemma wc_init_cwd_abs cwd p ext fs :
  wc_init_cwd cwd p (Abs <$> ext) fs = wc_init p ext fs.
Proof.
  unfold wc_init_cwd, wc_init. destruct ext as [e|]; simpl; [|done].
  apply bind_ext; [done|]. intros bad fs0. destruct bad; [done|].
  apply bind_ext; [done|]. intros _ fs1.
  apply bind_ext; [done|]. intros wr fs2. destruct (negb wr); [done|].
  apply bind_ext; [apply os_symlink_text_abs|done].
Qed.

Lemma wc_init_cwd_inv cwd fs p ext fs' :
  wc_init_cwd cwd p (Some ext) fs = (fs', inr tt) ->
  os_path_isdir fs (abspath cwd ext) = true
  /\ os_access_w fs (abspath cwd ext) = true
  /\ os_path_exists fs (_storedir p) = false
  /\ exists fs1 fs2,
      ((os_path_isdir fs p = true /\ fs1 = fs)
       \/ (os_path_exists fs p = false /\ os_makedirs p fs = (fs1, inr tt)))
      /\ os_access_w fs1 p = true
      /\ os_symlink_text ext (_storedir p) fs1 = (fs2, inr tt)
      /\ os_mkdir (_storefile p _PKG_DATA) fs2 = (fs', inr tt).
Proof.
  unfold wc_init_cwd, bind, test, raise, ret, try_except.
  destruct (os_path_isdir fs (abspath cwd ext)); simpl; [|done].
  destruct (os_access_w fs (abspath cwd ext)); simpl; [|done].
  destruct (os_path_exists fs (_storedir p)); [done|].
  destruct (os_path_exists fs p) eqn:Hex; simpl.
  - destruct (os_path_isdir fs p) eqn:Hdir; simpl; [|done].
    destruct (os_access_w fs p) eqn:Hacc; simpl; [|done].
    destruct (os_symlink_text ext (_storedir p) fs) as [fs2 [e'|[]]] eqn:Hst;
      [discriminate|].
    intros H. do 3 (split; [done|]). exists fs, fs2.
    split; [by left|]. by repeat split.
  - destruct (os_makedirs p fs) as [fs1 [e|[]]] eqn:Hmk.
    { by destruct e as [| |[]|]. }
    destruct (os_access_w fs1 p) eqn:Hacc; simpl; [|done].
    destruct (os_symlink_text ext (_storedir p) fs1) as [fs2 [e'|[]]] eqn:Hst;
      [discriminate|].
    intros H. do 3 (split; [done|]). exists fs1, fs2.
    split; [by right|]. by repeat split.
Qed.

(** C6: an external store directory that is not a writable directory
    (looked up from the working directory when the path name is
    relative) is refused before anything is done.  When [wc_init]
    returns, the store directory of the path is a link with the text
    that was given, and the data directory is a directory in the
    directory that link leads to.  For an absolute path name that is
    the external store directory.  For a relative one it is not the
    directory that was tested: the kernel reads the text of the link
    from the directory of the path, where the link is. *)
Theorem wc_init_ext_storedir (cwd : path) (fs : fsys) (p : path) (ext : pathname) :
  (os_path_isdir fs (abspath cwd ext) && os_access_w fs (abspath cwd ext) = false ->
     wc_init_cwd cwd p (Some ext) fs
     = (fs, inl (ValueError (BadExtStoredir (abspath cwd ext)))))
  /\ (forall fs', wc_init_cwd cwd p (Some ext) fs = (fs', inr tt) ->
       exists rp lp,
         realpath fs' p = inr rp
         /\ fs' !! (rp ++ [_STORE]) = Some (Symlink (link_target rp ext))
         /\ realpath fs' (link_target rp ext) = inr lp
         /\ realpath fs' (_storefile p _PKG_DATA) = inr (lp ++ [_PKG_DATA])
         /\ fs' !! (lp ++ [_PKG_DATA]) = Some (Dir true)
         /\ os_path_isdir fs' (abspath cwd ext) = true).
Proof.
  split.
  - intros Hbad. unfold wc_init_cwd, bind, test, raise. simpl.
    by destruct (os_path_isdir fs _), (os_access_w fs _).
  - intros fs' (Hd & _ & _ & fs1 & fs2 & Hprep & _ & Hst & Hdata)%wc_init_cwd_inv.
    assert (keeps_dirs fs fs1) as Hk0.
    { destruct Hprep as [[_ ->]|[_ Hmk]]; [apply keeps_dirs_refl|].
      by eapply adds_dirs_keeps, os_makedirs_adds. }
    apply os_symlink_text_ok in Hst as (d & c & rp & Heq & Hrp & Hn1 & ->).
    unfold _storedir, os_path_join in Heq. apply snoc_inj in Heq as [<- <-].
    set (fs2 := <[rp ++ [_STORE] := Symlink (link_target rp ext)]> fs1) in *.
    assert (keeps_dirs fs1 fs2) as Hk1.
    { apply keeps_dirs_insert. unfold passable. by rewrite Hn1. }
    apply os_mkdir_ok in Hdata as (d & c & lp & Heq & Hlp & Hnone & ->).
    unfold _storefile, os_path_join in Heq. apply snoc_inj in Heq as [<- <-].
    set (fs' := <[lp ++ [_PKG_DATA] := Dir true]> fs2).
    assert (keeps_dirs fs2 fs') as Hk2.
    { apply keeps_dirs_insert. unfold passable. by rewrite Hnone. }
    assert (fs' !! (lp ++ [_PKG_DATA]) = Some (Dir true)) as Hdata
      by apply lookup_insert_eq.
    assert (leads_to_dir fs' (_storedir p) lp true) as Hsd
      by by eapply leads_to_dir_frame.
    exists rp, lp.
    split.
    { eapply leads_realpath, leads_to_dir_frame; [exact Hk2|].
      eapply leads_to_dir_frame; [exact Hk1|exact Hrp]. }
    split.
    { unfold fs'. rewrite lookup_insert_ne; [apply lookup_insert_eq|].
      intros [_ [=]]%snoc_inj. }
    split.
    { eapply leads_realpath, leads_to_dir_frame; [exact Hk2|].
      eapply leads_via_link; [| |exact Hlp].
      - eapply leads_to_dir_frame; [exact Hk1|exact Hrp].
      - apply lookup_insert_eq. }
    split; [eapply leads_realpath, leads_snoc_dir; [exact Hsd|exact Hdata]|].
    split; [done|].
    apply isdir_leads in Hd as (q & w & Hq).
    eapply leads_isdir, leads_to_dir_frame; [exact Hk2|].
    eapply leads_to_dir_frame; [exact Hk1|].
    eapply leads_to_dir_frame; [exact Hk0|exact Hq].
Qed.

Lemma wc_init_ext_storedir_witness :
  (wc_init_cwd [] ["wc"] (Some (Abs ["ro"])) fs_plain
   = (fs_plain, inl (ValueError (BadExtStoredir ["ro"]))))
  /\ (exists fs' rp lp,
        wc_init_cwd [] ["new"] (Some (Abs ["ext"])) fs_plain = (fs', inr tt)
        /\ realpath fs' ["new"] = inr rp
        /\ fs' !! (rp ++ [_STORE]) = Some (Symlink ["ext"])
        /\ realpath fs' ["ext"] = inr lp
        /\ realpath fs' (_storefile ["new"] _PKG_DATA) = inr (lp ++ [_PKG_DATA])
        /\ fs' !! (lp ++ [_PKG_DATA]) = Some (Dir true))
  /\ (exists fs' rp lp,
        wc_init_cwd [] ["wc"] (Some (Rel ["ext"])) fs_two_ext = (fs', inr tt)
        /\ os_path_isdir fs_two_ext (abspath [] (Rel ["ext"])) = true
        /\ realpath fs' ["wc"] = inr rp
        /\ fs' !! (rp ++ [_STORE]) = Some (Symlink (rp ++ ["ext"]))
        /\ realpath fs' (rp ++ ["ext"]) = inr lp
        /\ realpath fs' (_storefile ["wc"] _PKG_DATA) = inr (lp ++ [_PKG_DATA])
        /\ fs' !! (lp ++ [_PKG_DATA]) = Some (Dir true)).
Proof.
  split; [|split].
  - apply (wc_init_ext_storedir [] fs_plain ["wc"] (Abs ["ro"])).
    vm_compute; reflexivity.
  - destruct (wc_init_cwd [] ["new"] (Some (Abs ["ext"])) fs_plain)
      as [fs' r] eqn:Hrun.
    assert (r = inr tt) as ->.
    { change r with (snd (fs', r)). rewrite <- Hrun. vm_compute; reflexivity. }
    destruct (proj2 (wc_init_ext_storedir [] fs_plain ["new"] (Abs ["ext"])) fs' Hrun)
      as (rp & lp & H1 & H2 & H3 & H4 & H5 & _).
    exists fs', rp, lp.
    exact (conj eq_refl (conj H1 (conj H2 (conj H3 (conj H4 H5))))).
  - destruct (wc_init_cwd [] ["wc"] (Some (Rel ["ext"])) fs_two_ext)
      as [fs' r] eqn:Hrun.
    assert (r = inr tt) as ->.
    { change r with (snd (fs', r)). rewrite <- Hrun. vm_compute; reflexivity. }
    destruct (proj2 (wc_init_ext_storedir [] fs_two_ext ["wc"] (Rel ["ext"])) fs' Hrun)
      as (rp & lp & H1 & H2 & H3 & H4 & H5 & _).
    exists fs', rp, lp. split; [reflexivity|].
    split; [vm_compute; reflexivity|].
    exact (conj H1 (conj H2 (conj H3 (conj H4 H5)))).
Defined.

(** With a relative path name the data directory is not made in the
    directory that was tested.  In [/], for the path [/wc] and the
    external store directory [ext]: the test looks at [/ext]; the link
    [/wc/.osc] leads to [/wc/ext].  When that is a directory the data
    directory is made there and [/ext] gets none; when it does not
    exist [os.mkdir] raises [ENOENT] and the link is left dangling. *)
Lemma wc_init_relative_ext :
  (exists fs',
      wc_init_cwd [] ["wc"] (Some (Rel ["ext"])) fs_two_ext = (fs', inr tt)
      /\ realpath fs' (abspath [] (Rel ["ext"])) = inr ["ext"]
      /\ realpath fs' (_storefile ["wc"] _PKG_DATA) = inr ["wc"; "ext"; "data"]
      /\ fs' !! ["ext"; "data"] = None)
  /\ (exists fs',
        wc_init_cwd [] ["wc"] (Some (Rel ["ext"])) fs_one_ext
        = (fs', inl (OSError ENOENT))
        /\ fs' !! ["wc"; ".osc"] = Some (Symlink ["wc"; "ext"])
        /\ os_path_exists fs' (_storedir ["wc"]) = false).
Proof.
  split.
  - destruct (wc_init_cwd [] ["wc"] (Some (Rel ["ext"])) fs_two_ext)
      as [fs' r] eqn:Hrun.
    assert (r = inr tt) as ->.
    { change r with (snd (fs', r)). rewrite <- Hrun. vm_compute; reflexivity. }
    exists fs'. split; [done|].
    change fs' with (fst (fs', @inr exn unit tt)). rewrite <- Hrun.
    repeat split; vm_compute; reflexivity.
  - destruct (wc_init_cwd [] ["wc"] (Some (Rel ["ext"])) fs_one_ext)
      as [fs' r] eqn:Hrun.
    assert (r = inl (OSError ENOENT)) as ->.
    { change r with (snd (fs', r)). rewrite <- Hrun. vm_compute; reflexivity. }
    exists fs'. split; [done|].
    change fs' with (fst (fs', @inl exn unit (OSError ENOENT))). rewrite <- Hrun.
    repeat split; vm_compute; reflexivity.
Qed.

(** X16: An external store directory that is in use already (the
    directory the link will lead to has its data directory) cannot be
    shared through [wc_init]: the call makes the link and then fails
    on the data directory with [EEXIST].  The link stays, so the path
    has a store directory after the call that raised. *)
Theorem wc_init_shared_store (cwd : path) (fs : fsys) (p : path) (ext : pathname)
    (rp lp : path) (n : node) :
  os_path_isdir fs (abspath cwd ext) = true ->
  os_access_w fs (abspath cwd ext) = true ->
  os_path_isdir fs p = true ->
  os_access_w fs p = true ->
  realpath fs p = inr rp ->
  fs !! (rp ++ [_STORE]) = None ->
  os_path_isdir fs (link_target rp ext) = true ->
  link_leads fs p (link_target rp ext) lp = true ->
  fs !! (lp ++ [_PKG_DATA]) = Some n ->
  wc_init_cwd cwd p (Some ext) fs
  = (<[rp ++ [_STORE] := Symlink (link_target rp ext)]> fs, inl (OSError EEXIST))
  /\ _has_storedir (<[rp ++ [_STORE] := Symlink (link_target rp ext)]> fs) p = true.
Proof.
  intros Hed Hea Hpd Hpa Hrp Hfree Hld Hlink Hdata.
  pose proof (realpath_dir_leads _ _ _ Hpd Hrp Hpa) as Hp.
  set (t := link_target rp ext) in *.
  set (fs1 := <[rp ++ [_STORE] := Symlink t]> fs).
  assert (keeps_dirs fs fs1) as Hk.
  { apply keeps_dirs_insert. unfold passable. by rewrite Hfree. }
  pose proof (leads_to_dir_frame _ _ _ _ _ Hk Hp) as Hp1.
  assert (exists w, leads_to_dir fs1 (_storedir p) lp w) as [w Hsd1].
  { unfold link_leads in Hlink.
    destruct (walk MAXSYMLINKS false fs [] p) as [e|[[|f] q]] eqn:Hwp; try done.
    destruct (walk f false fs [] t) as [e|[f2 q2]] eqn:Hwe; [done|].
    apply bool_decide_eq_true in Hlink as ->.
    assert (q = rp) as ->.
    { unfold realpath in Hrp. rewrite Hwp in Hrp. by injection Hrp. }
    apply isdir_leads in Hld as (eq' & w & He).
    assert (lp = eq') as <-.
    { apply (walk_leads f fs t f2 lp eq' w); [|done|done].
      apply walk_fuel_le in Hwp. lia. }
    destruct Hp as (fp & _ & Hrpd). destruct He as (fe & _ & Hepd).
    exists w, f2. split; [|by apply (Hk _ _ Hepd)].
    unfold _storedir, os_path_join. rewrite walk_snoc.
    rewrite (walk_dir_frame _ _ _ _ _ _ _ _ Hk Hwp Hrpd).
    rewrite (Hk _ _ Hrpd) by done.
    unfold fs1 at 1. rewrite lookup_insert_eq.
    by apply (walk_dir_frame _ _ _ _ _ _ _ _ Hk Hwe Hepd). }
  split.
  - unfold wc_init_cwd, bind, test, raise, ret. rewrite Hed, Hea. simpl.
    assert (os_path_exists fs (_storedir p) = false) as ->.
    { unfold os_path_exists, _storedir, os_path_join.
      rewrite (stat_snoc_lookup _ _ _ _ _ Hp); unfold passable; by rewrite Hfree. }
    rewrite (isdir_exists _ _ Hpd), Hpd. simpl. rewrite Hpa. simpl.
    unfold os_symlink_text, os_symlink, create_node, _storedir, os_path_join.
    rewrite (lookup_slot_snoc _ _ _STORE _ _ Hp). simpl. rewrite Hfree. simpl.
    unfold slot_path. simpl. fold t. fold fs1.
    unfold os_mkdir, create_node, _storefile, _storedir, os_path_join.
    unfold _storedir, os_path_join in Hsd1.
    rewrite (lookup_slot_snoc _ _ _PKG_DATA _ _ Hsd1). simpl.
    assert (fs1 !! (lp ++ [_PKG_DATA]) = Some n) as ->; [|done].
    unfold fs1. rewrite lookup_insert_ne; [done|].
    by intros [_ ?]%snoc_inj.
  - apply andb_true_iff. split; by eapply leads_isdir.
Qed.

Lemma wc_init_shared_store_witness :
  wc_init_cwd [] ["two"] (Some (Abs ["ext"])) fs_shared
  = (<[ ["two"] ++ [_STORE] := Symlink ["ext"] ]> fs_shared, inl (OSError EEXIST))
  /\ _has_storedir (<[ ["two"] ++ [_STORE] := Symlink ["ext"] ]> fs_shared) ["two"]
     = true.
Proof.
  apply (wc_init_shared_store [] fs_shared ["two"] (Abs ["ext"]) ["two"] ["ext"]
           (Dir true));
    vm_compute; reflexivity.
Defined.

(** ** [wc_init] on a path that does not exist *)

Lemma not_exists_extend fs p r :
  os_path_exists fs p = false -> os_path_exists fs (p ++ r) = false.
Proof.
  revert p. induction r as [|c r IH]; intros p H.
  - by rewrite app_nil_r.
  - replace (p ++ c :: r) with ((p ++ [c]) ++ r) by (by rewrite <- app_assoc).
    by apply IH, not_exists_below.
Qed.

Lemma wf_fs_no_desc fs q r :
  wf_fs fs = true -> fs !! q = None -> fs !! (q ++ r) = None.
Proof.
  intros Hwf Hq. induction r as [|c r IH] using rev_ind.
  - by rewrite app_nil_r.
  - rewrite app_assoc. by apply wf_fs_no_child.
Qed.

Lemma free_not_exists fs q dq w c r :
  leads_to_dir fs q dq w -> fs !! (dq ++ [c]) = None ->
  os_path_exists fs (q ++ c :: r) = false.
Proof.
  intros Hq Hn.
  replace (q ++ c :: r) with ((q ++ [c]) ++ r) by (by rewrite <- app_assoc).
  apply not_exists_extend. unfold os_path_exists.
  rewrite (stat_snoc_lookup _ _ _ _ _ Hq); unfold passable; by rewrite Hn.
Qed.

(** Making a directory under a free name of a writable directory. *)
Lemma os_mkdir_fresh_step fs d dd c :
  wf_fs fs = true -> leads_to_dir fs d dd true ->
  fs !! (dd ++ [c]) = None ->
  os_mkdir (d ++ [c]) fs = (<[dd ++ [c] := Dir true]> fs, inr tt)
  /\ wf_fs (<[dd ++ [c] := Dir true]> fs) = true
  /\ leads_to_dir (<[dd ++ [c] := Dir true]> fs) (d ++ [c]) (dd ++ [c]) true
  /\ forall c', <[dd ++ [c] := Dir true]> fs !! ((dd ++ [c]) ++ [c']) = None.
Proof.
  intros Hwf Hd Hfree.
  split.
  { unfold os_mkdir, create_node. rewrite (lookup_slot_snoc _ _ c _ _ Hd).
    simpl. by rewrite Hfree. }
  destruct Hd as (f & Hw & Hdd).
  split; [by eapply wf_fs_insert|].
  split.
  { eapply leads_snoc_dir; [|apply lookup_insert_eq].
    eapply leads_to_dir_frame; [|by exists f].
    apply keeps_dirs_insert. unfold passable. by rewrite Hfree. }
  intros c'. rewrite lookup_insert_ne
    by (intros H; symmetry in H; by apply snoc_ne in H).
  by apply wf_fs_no_child.
Qed.

(** Below a writable directory of a well-formed file system
    [os.makedirs] makes every directory of the path that is missing. *)
Lemma makedirs_creates fs q dq c0 r0 :
  wf_fs fs = true ->
  leads_to_dir fs q dq true ->
  fs !! (dq ++ [c0]) = None ->
  exists fs1,
    os_makedirs (q ++ c0 :: r0) fs = (fs1, inr tt)
    /\ wf_fs fs1 = true
    /\ leads_to_dir fs1 (q ++ c0 :: r0) (dq ++ c0 :: r0) true
    /\ (forall c, fs1 !! ((dq ++ c0 :: r0) ++ [c]) = None)
    /\ (forall r1 r2, c0 :: r0 = r1 ++ r2 -> r1 <> [] ->
          fs1 !! (dq ++ r1) = Some (Dir true)).
Proof.
  intros Hwf Hq Hn. unfold os_makedirs.
  induction r0 as [|c r IH] using rev_ind.
  - rewrite reverse_snoc. simpl. unfold bind, test, ret.
    rewrite reverse_involutive, (isdir_exists _ _ (leads_isdir _ _ _ _ Hq)). simpl.
    destruct (os_mkdir_fresh_step fs q dq c0 Hwf Hq Hn) as (-> & Hwf1 & Hl1 & Hf1).
    eexists. split; [done|]. split; [done|]. split; [done|]. split; [done|].
    intros r1 r2 Heq Hne. destruct r1 as [|x [|y r1]]; [done| |].
    + injection Heq as <- _. apply lookup_insert_eq.
    + by destruct r1.
  - destruct IH as (fs0 & Hrun0 & Hwf0 & Hl0 & Hf0 & Hpre0).
    replace (q ++ c0 :: r ++ [c]) with ((q ++ c0 :: r) ++ [c])
      by (by rewrite <- app_assoc).
    replace (dq ++ c0 :: r ++ [c]) with ((dq ++ c0 :: r) ++ [c])
      by (by rewrite <- app_assoc).
    rewrite reverse_snoc. simpl. unfold bind, test, try_except, ret.
    rewrite reverse_involutive, (free_not_exists _ _ _ _ _ r Hq Hn). simpl.
    rewrite Hrun0.
    destruct (os_mkdir_fresh_step fs0 _ _ c Hwf0 Hl0 (Hf0 c)) as (-> & Hwf1 & Hl1 & Hf1).
    eexists. split; [done|]. split; [done|]. split; [done|]. split; [done|].
    intros r1 r2 Heq Hne.
    destruct (decide (r2 = [])) as [->|Hr2].
    + rewrite app_nil_r in Heq. subst r1.
      replace (dq ++ (c0 :: r ++ [c])) with ((dq ++ c0 :: r) ++ [c])
        by (by rewrite <- app_assoc).
      apply lookup_insert_eq.
    + destruct (exists_last Hr2) as (r2' & c' & ->).
      rewrite app_comm_cons, app_assoc in Heq.
      apply app_inj_tail in Heq as [Heq <-].
      rewrite lookup_insert_ne.
      * by apply (Hpre0 r1 r2').
      * intros H. apply (f_equal List.length) in H.
        apply (f_equal List.length) in Heq.
        rewrite !length_app in H. rewrite length_app in Heq. simpl in *. lia.
Qed.

(** Below a directory that is not writable it fails at its first
    [mkdir], with [EACCES]. *)
Lemma makedirs_eacces fs q dq c0 r0 :
  leads_to_dir fs q dq false ->
  fs !! (dq ++ [c0]) = None ->
  os_makedirs (q ++ c0 :: r0) fs = (fs, inl (OSError EACCES)).
Proof.
  intros Hq Hn. unfold os_makedirs.
  induction r0 as [|c r IH] using rev_ind.
  - rewrite reverse_snoc. simpl. unfold bind, test, ret.
    rewrite reverse_involutive, (isdir_exists _ _ (leads_isdir _ _ _ _ Hq)). simpl.
    unfold os_mkdir, create_node. rewrite (lookup_slot_snoc _ _ c0 _ _ Hq).
    simpl. by rewrite Hn.
  - replace (q ++ c0 :: r ++ [c]) with ((q ++ c0 :: r) ++ [c])
      by (by rewrite <- app_assoc).
    rewrite reverse_snoc. simpl. unfold bind, test, try_except, ret, raise.
    rewrite reverse_involutive, (free_not_exists _ _ _ _ _ r Hq Hn). simpl.
    by rewrite IH.
Qed.

(** [wc_init] on a path that does not exist, after [os.makedirs]. *)
Lemma wc_init_makedirs fs p ext fs1 r :
  os_path_exists fs p = false ->
  ext_storedir_ok fs ext = true ->
  os_makedirs p fs = (fs1, r) ->
  wc_init p ext fs
  = match r with
    | inl (OSError EACCES) => (fs1, inl (ValueError (NoPermissionToCreate p)))
    | inl e => (fs1, inl e)
    | inr _ =>
        (match ext with
         | Some e => os_symlink e (_storedir p)
         | None => os_mkdir (_storedir p)
         end ;;; os_mkdir (_storefile p _PKG_DATA))%io fs1
    end.
Proof.
  intros Hex Hext Hmk.
  pose proof (not_exists_below _ _ _STORE Hex) as Hst.
  unfold wc_init. unfold bind at 1. unfold test at 1.
  rewrite bad_ext_iff, Hext. simpl.
  unfold bind at 1. unfold _storedir at 1, os_path_join. rewrite Hst, Hex. simpl.
  unfold try_except. rewrite Hmk.
  destruct r as [e|[]].
  - by destruct e as [| |[]|].
  - destruct (os_makedirs_leads _ _ _ Hmk) as [q Hq].
    unfold bind at 1, test. by rewrite (leads_access _ _ _ _ Hq).
Qed.

Lemma grows_make_store (ext : option path) p :
  grows (match ext with
         | Some e => os_symlink e (_storedir p)
         | None => os_mkdir (_storedir p)
         end ;;; os_mkdir (_storefile p _PKG_DATA))%io.
Proof.
  apply grows_bind; [|intros _; apply grows_os_mkdir].
  destruct ext; [apply grows_os_symlink|apply grows_os_mkdir].
Qed.

Lemma grows_keeps_dirs {A} (m : io A) fs fs' r :
  grows m -> m fs = (fs', r) -> keeps_dirs fs fs'.
Proof. intros Hg Hm x n Hx _. by eapply Hg. Qed.

(** C8: on a path that does not exist [wc_init] calls [os.makedirs].  A
    failure of it with [EACCES] becomes the error of a missing
    permission to create the path, every other failure is raised as it
    is; when it returns, the path is a directory in the file system
    that [wc_init] leaves, however [wc_init] ends.  In particular,
    where [q] is the part of the path that exists and leads to a
    directory: when that directory is not writable [wc_init] raises
    the error of the missing permission and changes nothing; when it
    is writable and the file system is well formed, every directory of
    the path below it did not exist before and is a directory
    afterwards, and without external store directory [wc_init]
    returns. *)
Theorem wc_init_creates_path (fs : fsys) (p : path) (ext : option path) :
  os_path_exists fs p = false ->
  ext_storedir_ok fs ext = true ->
  match os_makedirs p fs with
  | (fs1, inl (OSError EACCES)) =>
      wc_init p ext fs = (fs1, inl (ValueError (NoPermissionToCreate p)))
  | (fs1, inl e) => wc_init p ext fs = (fs1, inl e)
  | (fs1, inr _) =>
      os_path_isdir fs1 p = true
      /\ os_path_isdir (fst (wc_init p ext fs)) p = true
  end
  /\ forall q dq c rest,
       p = q ++ c :: rest ->
       realpath fs q = inr dq ->
       fs !! (dq ++ [c]) = None ->
       (fs !! dq = Some (Dir false) ->
          wc_init p ext fs = (fs, inl (ValueError (NoPermissionToCreate p))))
       /\ (fs !! dq = Some (Dir true) ->
           wf_fs fs = true ->
           os_path_isdir (fst (wc_init p ext fs)) p = true
           /\ (forall r1 r2, c :: rest = r1 ++ r2 -> r1 <> [] ->
                 fs !! (dq ++ r1) = None
                 /\ fst (wc_init p ext fs) !! (dq ++ r1) = Some (Dir true))
           /\ (ext = None -> snd (wc_init p ext fs) = inr tt)).
Proof.
  intros Hex Hext.
  assert (forall fs1, os_makedirs p fs = (fs1, inr tt) ->
            keeps_dirs fs1 (fst (wc_init p ext fs))) as Hkeep.
  { intros fs1 Hmk. rewrite (wc_init_makedirs _ _ _ _ _ Hex Hext Hmk).
    destruct ((match ext with
               | Some e => os_symlink e (_storedir p)
               | None => os_mkdir (_storedir p)
               end ;;; os_mkdir (_storefile p _PKG_DATA))%io fs1)
      as [fs' r] eqn:E.
    simpl. by eapply grows_keeps_dirs; [apply grows_make_store|]. }
  split.
  - destruct (os_makedirs p fs) as [fs1 [e|[]]] eqn:Hmk.
    + rewrite (wc_init_makedirs _ _ _ _ _ Hex Hext Hmk). by destruct e as [| |[]|].
    + destruct (os_makedirs_leads _ _ _ Hmk) as [q Hq]. split.
      * by eapply leads_isdir.
      * eapply leads_isdir, leads_to_dir_frame; [|exact Hq]. by apply Hkeep.
  - intros q dq c rest -> Hrq Hfree. split.
    + intros Hdq. pose proof (realpath_leads _ _ _ _ Hrq Hdq) as Hq.
      by rewrite (wc_init_makedirs _ _ _ _ _ Hex Hext
                    (makedirs_eacces _ _ _ _ rest Hq Hfree)).
    + intros Hdq Hwf. pose proof (realpath_leads _ _ _ _ Hrq Hdq) as Hq.
      destruct (makedirs_creates _ _ _ _ rest Hwf Hq Hfree)
        as (fs1 & Hmk & Hwf1 & Hl1 & Hf1 & Hpre1).
      pose proof (Hkeep _ Hmk) as Hk.
      split; [by eapply leads_isdir, leads_to_dir_frame|].
      split.
      * intros r1 r2 Heq Hne. split.
        -- destruct r1 as [|x r1]; [done|]. injection Heq as <- _.
           replace (dq ++ c :: r1) with ((dq ++ [c]) ++ r1)
             by (by rewrite <- app_assoc).
           by apply wf_fs_no_desc.
        -- by apply (Hk _ _ (Hpre1 r1 r2 Heq Hne)).
      * intros ->. rewrite (wc_init_makedirs _ _ _ _ _ Hex Hext Hmk).
        unfold bind, _storefile, _storedir, os_path_join.
        destruct (os_mkdir_fresh_step fs1 _ _ _STORE Hwf1 Hl1 (Hf1 _STORE))
          as (-> & Hwf2 & Hl2 & Hf2).
        by destruct (os_mkdir_fresh_step _ _ _ _PKG_DATA Hwf2 Hl2 (Hf2 _PKG_DATA))
          as (-> & _).
Qed.

Lemma wc_init_creates_path_witness :
  (wc_init ["new"; "sub"] None fs_plain
   = (fst (wc_init ["new"; "sub"] None fs_plain), inr tt)
   /\ fs_plain !! ["new"] = None
   /\ fst (wc_init ["new"; "sub"] None fs_plain) !! ["new"] = Some (Dir true)
   /\ fst (wc_init ["new"; "sub"] None fs_plain) !! ["new"; "sub"] = Some (Dir true)
   /\ os_path_isdir (fst (wc_init ["new"; "sub"] None fs_plain)) ["new"; "sub"]
      = true)
  /\ wc_init ["ro"; "sub"; "dir"] (Some ["ext"]) fs_plain
     = (fs_plain, inl (ValueError (NoPermissionToCreate ["ro"; "sub"; "dir"])))
  /\ snd (wc_init ["wc"; "file"; "sub"] None fs_file) = inl (OSError ENOTDIR).
Proof.
  split; [|split].
  - destruct (proj2 (wc_init_creates_path fs_plain ["new"; "sub"] None
                       ltac:(vm_compute; reflexivity) ltac:(vm_compute; reflexivity))
                [] [] "new" ["sub"] eq_refl
                ltac:(vm_compute; reflexivity) ltac:(vm_compute; reflexivity))
      as [_ H].
    destruct H as (Hd & Hpre & Hret); [vm_compute; reflexivity..|].
    specialize (Hret eq_refl).
    split.
    { destruct (wc_init ["new"; "sub"] None fs_plain) as [fs' r]. simpl in *.
      by subst r. }
    split; [vm_compute; reflexivity|].
    split; [apply (Hpre ["new"] ["sub"] eq_refl); discriminate|].
    split; [apply (Hpre ["new"; "sub"] [] eq_refl); discriminate|].
    exact Hd.
  - destruct (proj2 (wc_init_creates_path fs_plain ["ro"; "sub"; "dir"] (Some ["ext"])
                       ltac:(vm_compute; reflexivity) ltac:(vm_compute; reflexivity))
                ["ro"] ["ro"] "sub" ["dir"] eq_refl
                ltac:(vm_compute; reflexivity) ltac:(vm_compute; reflexivity))
      as [H _].
    apply H. vm_compute; reflexivity.
  - pose proof (wc_init_creates_path fs_file ["wc"; "file"; "sub"] None) as H.
    destruct (os_makedirs ["wc"; "file"; "sub"] fs_file) as [fs1 r] eqn:Hmk.
    assert (r = inl (OSError ENOTDIR)) as ->.
    { change r with (snd (fs1, r)). rewrite <- Hmk. vm_compute; reflexivity. }
    destruct H as [-> _]; [vm_compute; reflexivity..|reflexivity].
Defined.
